(** * go_firestore_filtering: the filter-to-Firestore-query transpiler

    A shallow embedding of package [filterstore]
    (src/filterstore/filterstore.go, and its earlier revision kept as
    src/unnamed/part_000) together with the properties of the operator
    table, the path resolver, the single-inequality-field guard, the
    ordering/cursor bookkeeping and the page-size validation.

    Go values are modelled as follows.
    - [string] is a Go string (a sequence of bytes).
    - [int32]/[int64] are [Z]; the code only compares them, so no
      wrap-around arithmetic is involved.
    - a function returning [error] becomes a computation in the monad [M]:
      it threads the [query] struct the method mutates and ends in [Ok],
      in [Error] with a gRPC status, or in [Panic] (a nil dereference).
    - [firestore.Query] is the record of the builder calls made so far. *)

From Stdlib Require Import ZArith String Ascii Bool Lia.
From stdpp Require Import base gmap strings list.

Local Open Scope Z_scope.

(** ** External packages *)

(** [github.com/iancoleman/strcase] v0.2.0 is not part of the repository.
    The transpiler is parametric in [ToCamel] (see [Externals] below);
    this module gives the scanning loop of the library's
    [toCamelInitCase s true], used to run the transpiler on concrete
    filters.  The loop writes only ASCII letters and digits; a letter
    that follows a digit or one of the delimiters '_', ' ', '-', '.' and
    the very first letter are upper-cased.  (The library first trims
    surrounding white space and looks the word up in an acronym table;
    neither matters for the field names used below.) *)
Module strcase.

Definition isCap (v : ascii) : bool :=
  (65 <=? Z.of_nat (nat_of_ascii v)) && (Z.of_nat (nat_of_ascii v) <=? 90).
Definition isLow (v : ascii) : bool :=
  (97 <=? Z.of_nat (nat_of_ascii v)) && (Z.of_nat (nat_of_ascii v) <=? 122).
Definition isNum (v : ascii) : bool :=
  (48 <=? Z.of_nat (nat_of_ascii v)) && (Z.of_nat (nat_of_ascii v) <=? 57).
Definition isDelim (v : ascii) : bool :=
  (Ascii.eqb v "_" || Ascii.eqb v " " || Ascii.eqb v "-" || Ascii.eqb v ".")%char.

(** [v += 'A'; v -= 'a'] and [v += 'a'; v -= 'A'] on a byte. *)
Definition upper (v : ascii) : ascii := ascii_of_nat (nat_of_ascii v - 32).
Definition lower (v : ascii) : ascii := ascii_of_nat (nat_of_ascii v + 32).

(** The body of [for i, v := range []byte(s)]; [first] is [i == 0]. *)
Fixpoint loop (capNext first : bool) (s : string) : string :=
  match s with
  | EmptyString => EmptyString
  | String v rest =>
      let v' :=
        if capNext then (if isLow v then upper v else v)
        else if first then (if isCap v then lower v else v)
        else v in
      if isCap v || isLow v then String v' (loop false false rest)
      else if isNum v then String v (loop true false rest)
      else loop (isDelim v) false rest
  end.

Definition ToCamel (s : string) : string := loop true true s.

End strcase.

(** Function names of [go.einride.tech/aip/filtering] (functions.go). *)
Module filtering.
Definition FunctionAnd : string := "AND".
Definition FunctionOr : string := "OR".
Definition FunctionNot : string := "NOT".
Definition FunctionEquals : string := "=".
Definition FunctionNotEquals : string := "!=".
Definition FunctionLessThan : string := "<".
Definition FunctionLessEquals : string := "<=".
Definition FunctionGreaterEquals : string := ">=".
Definition FunctionGreaterThan : string := ">".
Definition FunctionHas : string := ":".
End filtering.

(** [google.golang.org/grpc/codes] and [status]: the only code the
    package produces itself is [InvalidArgument]; [Unknown] stands for
    the code of an error handed over by a collaborator. *)
Module codes.
Inductive Code : Set := InvalidArgument | Unknown.
End codes.

Record Status : Set := mkStatus { Code : codes.Code; Message : string }.

(** ** The expression tree ([expr] = googleapis/api/expr/v1alpha1) *)

(** [*expr.Constant] payloads.  A double is carried as its IEEE-754 bit
    pattern; [Constant_OtherKind] stands for the kinds [unwrapConst] does
    not list (null, duration, timestamp) and for an unset oneof. *)
Inductive Constant : Type :=
| Constant_BoolValue (b : bool)
| Constant_BytesValue (bs : list Byte.byte)
| Constant_DoubleValue (bits : Z)
| Constant_Int64Value (i : Z)
| Constant_StringValue (s : string)
| Constant_Uint64Value (u : Z)
| Constant_OtherKind.

(** A value of type [*expr.Expr]: the nil pointer or a node with its id
    and its kind.  [Expr_OtherKind] stands for list, struct and
    comprehension nodes and for a node whose oneof is unset. *)
#[warnings="-register-all"] Inductive Expr : Type :=
| Expr_nil
| Expr_ConstExpr (Id : Z) (ConstExpr : Constant)
| Expr_IdentExpr (Id : Z) (Name : string)
| Expr_SelectExpr (Id : Z) (Operand : Expr) (Field : string)
| Expr_CallExpr (Id : Z) (Function : string) (Args : list Expr)
| Expr_OtherKind (Id : Z).

(** The field read [e.Id]; reading it through a nil pointer panics,
    which is [None] here. *)
Definition ExprId (e : Expr) : option Z :=
  match e with
  | Expr_nil => None
  | Expr_ConstExpr id _ | Expr_IdentExpr id _ | Expr_SelectExpr id _ _
  | Expr_CallExpr id _ _ | Expr_OtherKind id => Some id
  end.

(** [e.GetConstExpr()]: nil unless [e] is a constant node. *)
Definition GetConstExpr (e : Expr) : option Constant :=
  match e with
  | Expr_ConstExpr _ c => Some c
  | _ => None
  end.

(** [c.GetStringValue()]: the empty string unless [c] is a string. *)
Definition GetStringValue (c : option Constant) : string :=
  match c with
  | Some (Constant_StringValue s) => s
  | _ => ""
  end.

(** [*expr.Type], by the kinds [transpileHas] tells apart. *)
Inductive TypeKind : Type :=
| Type_MessageType (name : string)
| Type_ListType
| Type_MapType
| Type_OtherKind.

(** [*expr.CheckedExpr]: [GetTypeMap()] and [GetExpr()]. *)
Record CheckedExpr : Type := mkCheckedExpr {
  TypeMap : gmap Z TypeKind;
  GetExpr : Expr
}.

(** What the transpiler takes from outside the repository: the casing
    function [strcase.ToCamel] and the [%v] rendering of an expression
    used in one error message. *)
Class Externals : Type := {
  ToCamel : string -> string;
  fmtExpr : Expr -> string
}.

(** ** The query builder ([cloud.google.com/go/firestore]) *)

(** An operand handed to Firestore ([interface{}]). *)
Inductive value : Type :=
| v_nil
| v_bool (b : bool)
| v_bytes (bs : list Byte.byte)
| v_float64 (bits : Z)
| v_int64 (i : Z)
| v_string (s : string)
| v_uint64 (u : Z).

Module firestore.

Inductive Direction : Set := Asc | Desc.

Definition DocumentID : string := "__name__".

(** The builder calls recorded so far, each list in call order. *)
Record Query : Type := mkQuery {
  collection : string;
  limit : option Z;
  filters : list (string * string * value);
  orders : list (string * Direction);
  startVals : option (list value)
}.

Definition Collection (path : string) : Query :=
  mkQuery path None [] [] None.

Definition Limit (n : Z) (q : Query) : Query :=
  mkQuery (collection q) (Some n) (filters q) (orders q) (startVals q).

Definition Where (path op : string) (v : value) (q : Query) : Query :=
  mkQuery (collection q) (limit q) (filters q ++ [(path, op, v)])
          (orders q) (startVals q).

Definition OrderBy (path : string) (d : Direction) (q : Query) : Query :=
  mkQuery (collection q) (limit q) (filters q)
          (orders q ++ [(path, d)]) (startVals q).

Definition StartAfter (vals : list value) (q : Query) : Query :=
  mkQuery (collection q) (limit q) (filters q) (orders q) (Some vals).

End firestore.

(** ** Results and the state of one transpilation *)

Inductive result (A : Type) : Type :=
| Ok (a : A)
| Error (st : Status)
| Panic.
Arguments Ok {A} a.
Arguments Error {A} st.
Arguments Panic {A}.

(** [status.Error(codes.InvalidArgument, msg)] *)
Definition invalidArgument {A : Type} (msg : string) : result A :=
  Error (mkStatus codes.InvalidArgument msg).

(** [type query struct]; the field [subqueries] is never read or
    written and is left out. *)
Record query : Type := mkquery {
  query_q : firestore.Query;
  query_types : gmap Z TypeKind;
  query_inequality : string;
  query_startAfter : list value
}.

(** A method on [*query] returning [error]. *)
Definition M (A : Type) : Type := query -> result A * query.

Definition ret {A : Type} (a : A) : M A := fun s => (Ok a, s).

Definition bind {A B : Type} (m : M A) (k : A -> M B) : M B :=
  fun s =>
    match m s with
    | (Ok a, s') => k a s'
    | (Error st, s') => (Error st, s')
    | (Panic, s') => (Panic, s')
    end.

(** A call that cannot touch the query ([operator], [toPath], ...). *)
Definition lift {A : Type} (r : result A) : M A := fun s => (r, s).

Definition modify (f : query -> query) : M unit := fun s => (Ok tt, f s).

Declare Scope go_scope.
Delimit Scope go_scope with go.
Notation "x <- m ;; k" := (bind m (fun x => k))
  (at level 100, m at next level, right associativity) : go_scope.
Notation "m ;;; k" := (bind m (fun _ => k))
  (at level 100, right associativity) : go_scope.

(** [q.q = f(q.q)] *)
Definition on_q (f : firestore.Query -> firestore.Query) (s : query) : query :=
  mkquery (f (query_q s)) (query_types s) (query_inequality s)
          (query_startAfter s).

(** [q.inequality = path] *)
Definition set_inequality (path : string) (s : query) : query :=
  mkquery (query_q s) (query_types s) path (query_startAfter s).

(** [q.startAfter = append(q.startAfter, v)] *)
Definition append_startAfter (v : value) (s : query) : query :=
  mkquery (query_q s) (query_types s) (query_inequality s)
          (query_startAfter s ++ [v]).

(** ** package [strings] *)
Module strings.

(** [strings.Index(s, substr)]: first byte offset of [substr], or -1. *)
Definition Index (s substr : string) : Z :=
  match String.index 0 substr s with
  | Some n => Z.of_nat n
  | None => -1
  end.

(** The slice expression [s[i:]] for [0 <= i <= len(s)]. *)
Definition from (i : Z) (s : string) : string :=
  String.substring (Z.to_nat i) (String.length s - Z.to_nat i) s.

End strings.

(** ** package [filterstore] (src/filterstore/filterstore.go) *)
Module filterstore.
Section WithExternals.
Context `{Externals}.
Local Open Scope go_scope.

(** [func operator(function string, not bool) (string, error)] *)
Definition operator (function : string) (not : bool) : result string :=
  if String.eqb function filtering.FunctionEquals then
    if not then Ok "!=" else Ok "=="
  else if String.eqb function filtering.FunctionNotEquals then
    if not then Ok "==" else Ok "!="
  else if String.eqb function filtering.FunctionLessThan then
    if not then Ok ">=" else Ok "<"
  else if String.eqb function filtering.FunctionLessEquals then
    if not then Ok ">" else Ok "<="
  else if String.eqb function filtering.FunctionGreaterThan then
    if not then Ok "<=" else Ok ">"
  else if String.eqb function filtering.FunctionGreaterEquals then
    if not then Ok "<" else Ok ">="
  else
    let notStr := if not then "NOT " else "" in
    invalidArgument ("no Firestore operator for " +:+ notStr +:+ function).

(** [func toPath(e *expr.Expr) (string, error)] *)
Fixpoint toPath (e : Expr) : result string :=
  match e with
  | Expr_SelectExpr _ operand field =>
      match toPath operand with
      | Ok p => Ok (p +:+ "." +:+ ToCamel field)
      | Error st => Error st
      | Panic => Panic
      end
  | Expr_IdentExpr _ name => Ok (ToCamel name)
  | _ => invalidArgument
           ("unable to get path for expression: " +:+ fmtExpr e)
  end.

(** [func unwrapConst(c *expr.Constant) interface{}]: the switch reads
    [c.ConstantKind], a field of the pointee, so a nil [c] panics. *)
Definition unwrapConst (c : option Constant) : result value :=
  match c with
  | None => Panic
  | Some (Constant_BoolValue b) => Ok (v_bool b)
  | Some (Constant_BytesValue bs) => Ok (v_bytes bs)
  | Some (Constant_DoubleValue d) => Ok (v_float64 d)
  | Some (Constant_Int64Value i) => Ok (v_int64 i)
  | Some (Constant_StringValue s) => Ok (v_string s)
  | Some (Constant_Uint64Value u) => Ok (v_uint64 u)
  | Some Constant_OtherKind => Ok v_nil
  end.

(** [func (q *query) setInequality(path string) error] *)
Definition setInequality (path : string) : M unit :=
  fun q =>
    if String.eqb (query_inequality q) "" then
      (Ok tt, set_inequality path q)
    else if negb (String.eqb (query_inequality q) path) then
      (invalidArgument "inequality can only be used on a single field", q)
    else (Ok tt, q).

(** The path computed in the message case of [transpileHas]:
    [fmt.Sprintf("%s.%s", path, strcase.ToCamel(name))] and then
    [path[strings.Index(path, ".")+1:]]. *)
Definition hasPath (path name : string) : string :=
  let path := path +:+ "." +:+ ToCamel name in
  strings.from (strings.Index path "." + 1) path.

(** [func (q *query) transpileHas(e *expr.Expr_Call, not bool) error].
    [e.Args[0].Id] reads a field of [Args[0]] and panics when that
    pointer is nil; a missing map entry is a nil [*expr.Type], whose
    kind matches no case. *)
Definition transpileHas (Args : list Expr) (not : bool) : M unit :=
  match Args with
  | [a0; a1] =>
      match ExprId a0 with
      | None => lift Panic
      | Some id =>
          fun q =>
            match query_types q !! id with
            | Some (Type_MessageType _) =>
                (path <- lift (toPath a0) ;;
                 let path := hasPath path (GetStringValue (GetConstExpr a1)) in
                 if not then
                   modify (on_q (firestore.Where path "==" v_nil))
                 else
                   setInequality path ;;;
                   modify (append_startAfter v_nil) ;;;
                   modify (on_q (firestore.OrderBy path firestore.Asc))) q
            | _ =>
                (invalidArgument ": must be used on a message, map or list", q)
            end
      end
  | _ => lift (invalidArgument ": requires two arguments")
  end.

(** [func (q *query) transpileEquality(e *expr.Expr_Call, not bool) error] *)
Definition transpileEquality (Function : string) (Args : list Expr)
    (not : bool) : M unit :=
  match Args with
  | [a0; a1] =>
      op <- lift (operator Function not) ;;
      path <- lift (toPath a0) ;;
      (if negb (String.eqb op "==") then setInequality path else ret tt) ;;;
      v <- lift (unwrapConst (GetConstExpr a1)) ;;
      modify (on_q (firestore.Where path op v))
  | _ => lift (invalidArgument (Function +:+ " requires two arguments"))
  end.

(** The case list of [transpileCall] that leads to
    [transpileEquality]. *)
Definition relational (Function : string) : bool :=
  String.eqb Function filtering.FunctionEquals
  || String.eqb Function filtering.FunctionNotEquals
  || String.eqb Function filtering.FunctionLessThan
  || String.eqb Function filtering.FunctionLessEquals
  || String.eqb Function filtering.FunctionGreaterThan
  || String.eqb Function filtering.FunctionGreaterEquals.

(** The body of [transpileCall], with the recursive calls to
    [q.transpile] passed in as [transpile]. *)
Definition transpileCallWith (transpile : Expr -> bool -> M unit)
    (Function : string) (Args : list Expr) (not : bool) : M unit :=
  if String.eqb Function filtering.FunctionNot then
    match Args with
    | [a0] => transpile a0 (negb not)
    | _ => lift (invalidArgument "NOT requires one argument")
    end
  else if String.eqb Function filtering.FunctionHas then
    transpileHas Args not
  else if relational Function then
    transpileEquality Function Args not
  else if String.eqb Function filtering.FunctionAnd then
    match Args with
    | [a0; a1] => transpile a0 not ;;; transpile a1 not
    | _ => lift (invalidArgument "AND requires two arguments")
    end
  else
    lift (invalidArgument ("unknown filter function " +:+ Function)).

(** [func (q *query) transpile(e *expr.Expr, not bool) error]; the
    [log.Printf] of the default case writes to the process log only. *)
Fixpoint transpile (e : Expr) (not : bool) : M unit :=
  match e with
  | Expr_nil => ret tt
  | Expr_CallExpr _ Function Args =>
      transpileCallWith transpile Function Args not
  | _ => lift (invalidArgument "invalid filter expression")
  end.

(** [func (q *query) transpileCall(e *expr.Expr_Call, not bool) error] *)
Definition transpileCall : string -> list Expr -> bool -> M unit :=
  transpileCallWith transpile.

(** The pagination part of [Transpile] (lines 44-50): the state after
    [q.q.OrderBy]/[append] and [q.q.StartAfter]. *)
Definition paginate (pageToken : string) (q : query) : query :=
  let q :=
    if negb (String.eqb pageToken "") then
      append_startAfter (v_string pageToken)
        (on_q (firestore.OrderBy firestore.DocumentID firestore.Asc) q)
    else q in
  if (0 <? Z.of_nat (length (query_startAfter q)))%Z then
    on_q (firestore.StartAfter (query_startAfter q)) q
  else q.

(** The initial [&query{...}] of [Transpile]. *)
Definition newQuery (parent collection : string) (pageSize : Z)
    (filter : CheckedExpr) : query :=
  mkquery
    (firestore.Limit pageSize
       (firestore.Collection (parent +:+ "/" +:+ collection)))
    (TypeMap filter) "" [].

(** [func (t transpiler[T]) Transpile(...)] up to
    [q.q.Documents(ctx).GetAll()]: the query state whose [q.q] is
    executed, or the error (or panic) of the tree walk. *)
Definition Transpile (parent collection pageToken : string) (pageSize : Z)
    (filter : CheckedExpr) : result query :=
  match transpile (GetExpr filter) false
          (newQuery parent collection pageSize filter) with
  | (Ok _, q) => Ok (paginate pageToken q)
  | (Error st, _) => Error st
  | (Panic, _) => Panic
  end.

End WithExternals.
End filterstore.

(** ** The earlier revision of the package (src/unnamed/part_000)

    Here the entry point takes the list request itself, validates the
    page size and has the filter parsed; relational calls are accepted
    and add nothing, [AND] is not handled yet. *)
Module part_000.

(** [type ListRequest interface]: the four getters. *)
Record ListRequest : Type := mkListRequest {
  GetParent : string;
  GetPageSize : Z;
  GetPageToken : string;
  GetFilter : string
}.

(** [type transpiler struct]; [client] and [decls] are only handed on
    to the collaborators. *)
Record transpiler : Type := mktranspiler {
  collection : string;
  defaultPageSize : Z;
  maxPageSize : Z
}.

Section WithExternals.
Context `{Externals}.
(** [filtering.ParseFilter(req, t.decls)] *)
Variable ParseFilter : ListRequest -> result CheckedExpr.
Local Open Scope go_scope.

(** [func operation(function string, not bool) (string, error)]
    (not called anywhere). *)
Definition operation (function : string) (not : bool) : result string :=
  if String.eqb function filtering.FunctionEquals then
    if not then Ok "==" else Ok "!="
  else
    let notStr := if not then "NOT " else "" in
    invalidArgument ("no Firestore operator for " +:+ notStr +:+ function).

(** [func toPath]: the same text as in filterstore.go. *)
Definition toPath : Expr -> result string := filterstore.toPath.

(** [func (q *query) transpileHas(e *expr.Expr_Call, not bool) error] *)
Definition transpileHas (Args : list Expr) (not : bool) : M unit :=
  match Args with
  | [a0; a1] =>
      match ExprId a0 with
      | None => lift Panic
      | Some id =>
          fun q =>
            match query_types q !! id with
            | Some (Type_MessageType _) =>
                (path <- lift (toPath a0) ;;
                 let path :=
                   filterstore.hasPath path
                     (GetStringValue (GetConstExpr a1)) in
                 if not then
                   modify (on_q (firestore.Where path "==" v_nil))
                 else
                   (fun q =>
                      if String.eqb (query_inequality q) "" then
                        (Ok tt, set_inequality path q)
                      else if negb (String.eqb (query_inequality q) path)
                      then
                        (invalidArgument
                           "inequality can only be used on a single field",
                         q)
                      else (Ok tt, q)) ;;;
                   modify (append_startAfter v_nil) ;;;
                   modify (on_q (firestore.OrderBy path firestore.Asc))) q
            | _ =>
                (invalidArgument
                   "has must be used on a message, map or list", q)
            end
      end
  | _ => lift (invalidArgument ": requires two arguments")
  end.

(** [func (q *query) transpileEquality]: [return nil]. *)
Definition transpileEquality (Function : string) (Args : list Expr)
    (not : bool) : M unit := ret tt.

(** The body of [transpileCall]; the cases [FunctionAnd] and
    [FunctionOr] are empty and fall through to the final error. *)
Definition transpileCallWith (transpile : Expr -> bool -> M unit)
    (Function : string) (Args : list Expr) (not : bool) : M unit :=
  if String.eqb Function filtering.FunctionNot then
    match Args with
    | [a0] => transpile a0 (negb not)
    | _ => lift (invalidArgument "NOT requires one argument")
    end
  else if String.eqb Function filtering.FunctionHas then
    transpileHas Args not
  else if filterstore.relational Function then
    transpileEquality Function Args not
  else
    lift (invalidArgument ("unknown filter function " +:+ Function)).

(** [func (q *query) transpile(e *expr.Expr, not bool) error] *)
Fixpoint transpile (e : Expr) (not : bool) : M unit :=
  match e with
  | Expr_nil => ret tt
  | Expr_CallExpr _ Function Args =>
      transpileCallWith transpile Function Args not
  | _ => lift (invalidArgument "invalid filter expression")
  end.

(** [func (q *query) transpileCall(e *expr.Expr_Call, not bool) error] *)
Definition transpileCall : string -> list Expr -> bool -> M unit :=
  transpileCallWith transpile.

(** The [switch] on the page size at the head of [Transpile] (lines
    217-225): the value of the local [pageSize] after it, or the
    error returned from its first case. *)
Definition pageSizeSwitch (t : transpiler) (req : ListRequest) : result Z :=
  let pageSize := GetPageSize req in
  if pageSize <? 0 then
    Error (mkStatus codes.InvalidArgument "page size cannot be negative")
  else if pageSize =? 0 then Ok (defaultPageSize t)
  else if GetPageSize req >? maxPageSize t then Ok (maxPageSize t)
  else Ok pageSize.

(** [func (t transpiler) Transpile(ctx, req)] up to
    [q.q.Documents(ctx).GetAll()].  The local [pageSize] is not read
    again after the switch. *)
Definition Transpile (t : transpiler) (req : ListRequest) : result query :=
  match pageSizeSwitch t req with
  | Error st => Error st
  | Panic => Panic
  | Ok pageSize =>
      match ParseFilter req with
      | Error st => Error st
      | Panic => Panic
      | Ok filter =>
          let q :=
            mkquery
              (firestore.Collection
                 (GetParent req +:+ "/" +:+ collection t))
              (TypeMap filter) "" [] in
          (* lines 235-241 are those of filterstore.go, 44-50 *)
          match transpile (GetExpr filter) false q with
          | (Ok _, q) => Ok (filterstore.paginate (GetPageToken req) q)
          | (Error st, _) => Error st
          | (Panic, _) => Panic
          end
      end
  end.

End WithExternals.

(** The parts of the descriptors that [New] reads: the two method and
    message extensions ([None] when [proto.HasExtension] is false), their
    optional fields (pointers, [None] when nil), and the fields of the
    output message by number ([Fields().ByNumber], nil when absent). *)
Record MethodPaginationOptions : Type := mkMethodPaginationOptions {
  DefaultPageSize : option Z;
  MaxPageSize : option Z
}.

Record MessageCollectionOptions : Type := mkMessageCollectionOptions {
  CollectionFieldNumber : option Z
}.

Record FieldDescriptor : Type := mkFieldDescriptor {
  FieldName : string;
  IsList : bool
}.

Record MessageDescriptor : Type := mkMessageDescriptor {
  FullName : string;
  E_Collection : option MessageCollectionOptions;
  Fields : gmap Z FieldDescriptor
}.

Record MethodDescriptor : Type := mkMethodDescriptor {
  E_Pagination : option MethodPaginationOptions;
  Output : MessageDescriptor
}.

Section WithDeclarations.
(** [filtering.NewDeclarations(...)] for the message of the collection
    field: only its error matters here. *)
Variable NewDeclarations : FieldDescriptor -> result unit.

(** [func New(client, mtd) (Transpiler, error)] *)
Definition New (mtd : MethodDescriptor) : result transpiler :=
  let defaultPageSize :=
    match E_Pagination mtd with
    | Some options =>
        match DefaultPageSize options with Some n => n | None => 10 end
    | None => 10
    end in
  let maxPageSize :=
    match E_Pagination mtd with
    | Some options =>
        match MaxPageSize options with Some n => n | None => 100 end
    | None => 100
    end in
  let collectionFieldNum :=
    match E_Collection (Output mtd) with
    | Some options =>
        match CollectionFieldNumber options with Some n => n | None => 1 end
    | None => 1
    end in
  match Fields (Output mtd) !! collectionFieldNum with
  | Some collectionField =>
      if IsList collectionField then
        match NewDeclarations collectionField with
        | Ok _ =>
            Ok (mktranspiler (FieldName collectionField)
                  defaultPageSize maxPageSize)
        | Error st => Error st
        | Panic => Panic
        end
      else
        invalidArgument ("unable to determine collection field for "
                         +:+ FullName (Output mtd))
  | None =>
      invalidArgument ("unable to determine collection field for "
                       +:+ FullName (Output mtd))
  end.

End WithDeclarations.
End part_000.

(** ** Instances used to run the transpiler on concrete filters *)

(** The casing function of the library, and a fixed rendering for the
    one message that prints an expression. *)
Definition strcaseExternals : Externals :=
  {| ToCamel := strcase.ToCamel; fmtExpr := fun _ => "<expr>" |}.

(** ** Notions used to state the properties *)

(** What a comparison operator of the store means on two integers. *)
Definition holds (op : string) (a b : Z) : option bool :=
  if String.eqb op "==" then Some (a =? b)
  else if String.eqb op "!=" then Some (negb (a =? b))
  else if String.eqb op "<" then Some (a <? b)
  else if String.eqb op "<=" then Some (a <=? b)
  else if String.eqb op ">" then Some (b <? a)
  else if String.eqb op ">=" then Some (b <=? a)
  else None.

(** A selection chain [x.f1.f2...fk]: the names from the root
    identifier to the outermost selected field. *)
Fixpoint chainNames (e : Expr) : option (list string) :=
  match e with
  | Expr_IdentExpr _ name => Some [name]
  | Expr_SelectExpr _ operand field =>
      match chainNames operand with
      | Some names => Some (names ++ [field])
      | None => None
      end
  | _ => None
  end.

(** The number of nodes on a selection chain, the identifier included. *)
Fixpoint depth (e : Expr) : nat :=
  match e with
  | Expr_IdentExpr _ _ => 1%nat
  | Expr_SelectExpr _ operand _ => S (depth operand)
  | _ => 0%nat
  end.

(** No byte of [s] is the path separator. *)
Fixpoint dotFree (s : string) : bool :=
  match s with
  | EmptyString => true
  | String c rest => negb (Ascii.eqb c ".") && dotFree rest
  end.

(** The segments of a dotted path ([strings.Split(s, ".")]). *)
Fixpoint segments (s : string) : list string :=
  match s with
  | EmptyString => [EmptyString]
  | String c rest =>
      if Ascii.eqb c "." then EmptyString :: segments rest
      else match segments rest with
           | seg :: segs => String c seg :: segs
           | [] => [String c EmptyString]
           end
  end.



Definition errSingleField : Status :=
  mkStatus codes.InvalidArgument
           "inequality can only be used on a single field".

(** [q'] has the orderings and cursor values of [q] followed by one
    ascending ordering and one null cursor for each of [paths]; the
    start-after argument and the type map are those of [q]. *)
Definition extends (q q' : query) (paths : list string) : Prop :=
  firestore.orders (query_q q')
  = firestore.orders (query_q q) ++ map (fun p => (p, firestore.Asc)) paths
  /\ query_startAfter q' = query_startAfter q ++ map (fun _ => v_nil) paths
  /\ firestore.startVals (query_q q') = firestore.startVals (query_q q)
  /\ query_types q' = query_types q.

(** What the pagination step guarantees about the state [qf] it makes
    of the state [qw] the walk ended in. *)
Definition stitched (pageToken : string) (qw qf : query) : Prop :=
  (firestore.startVals (query_q qf)
   = match query_startAfter qf with
     | [] => None
     | _ :: _ => Some (query_startAfter qf)
     end)
  /\ (pageToken <> "" ->
      firestore.orders (query_q qf)
      = firestore.orders (query_q qw)
        ++ [(firestore.DocumentID, firestore.Asc)]
      /\ query_startAfter qf = query_startAfter qw ++ [v_string pageToken]
      /\ last (query_startAfter qf) = Some (v_string pageToken)
      /\ firestore.startVals (query_q qf) = Some (query_startAfter qf)).

(** Every predicate whose operator is not [==] and every ordering of
    [q] is on the path held in the inequality field, or on the empty
    path. *)
Definition onInequalityField (q : query) : Prop :=
  (forall (path op : string) (v : value),
      In (path, op, v) (firestore.filters (query_q q)) ->
      op <> "==" -> path = "" \/ path = query_inequality q)
  /\ (forall (path : string) (d : firestore.Direction),
         In (path, d) (firestore.orders (query_q q)) ->
         path = "" \/ path = query_inequality q).

(** [q'] is [q] with predicates and orderings added at the end and,
    possibly, other cursor values and another inequality field: the
    collection, the limit, the start-after argument and the type map
    are the same. *)
Definition grownFrom (q q' : query) : Prop :=
  firestore.collection (query_q q') = firestore.collection (query_q q)
  /\ firestore.limit (query_q q') = firestore.limit (query_q q)
  /\ firestore.startVals (query_q q') = firestore.startVals (query_q q)
  /\ query_types q' = query_types q
  /\ (exists added,
         firestore.filters (query_q q')
         = firestore.filters (query_q q) ++ added)
  /\ (exists added,
         firestore.orders (query_q q')
         = firestore.orders (query_q q) ++ added).

(** The node at the bottom of a chain of selections. *)
Fixpoint chainRoot (e : Expr) : Expr :=
  match e with
  | Expr_SelectExpr _ operand _ => chainRoot operand
  | _ => e
  end.

(** The relational function that states the contrary of [function]. *)
Definition complementFunction (function : string) : string :=
  if String.eqb function filtering.FunctionEquals
  then filtering.FunctionNotEquals
  else if String.eqb function filtering.FunctionNotEquals
  then filtering.FunctionEquals
  else if String.eqb function filtering.FunctionLessThan
  then filtering.FunctionGreaterEquals
  else if String.eqb function filtering.FunctionLessEquals
  then filtering.FunctionGreaterThan
  else if String.eqb function filtering.FunctionGreaterThan
  then filtering.FunctionLessEquals
  else if String.eqb function filtering.FunctionGreaterEquals
  then filtering.FunctionLessThan
  else function.

(** * Properties *)

(** ** Strings *)

Lemma eqb_false_of_neq (s t : string) : s <> t -> String.eqb s t = false.
Proof. intros Hne. now apply String.eqb_neq. Qed.

Lemma append_nil (b : string) : "" +:+ b = b.
Proof. reflexivity. Qed.

Lemma append_cons (c : ascii) (a b : string) :
  String c a +:+ b = String c (a +:+ b).
Proof. reflexivity. Qed.

#[local] Ltac app_simpl := rewrite ?append_cons, ?append_nil in *.

Lemma substring_whole (s : string) : String.substring 0 (String.length s) s = s.
Proof. induction s as [|c s IH]; simpl; [reflexivity | now rewrite IH]. Qed.

Lemma dotFree_append (a b : string) :
  dotFree (a +:+ b) = dotFree a && dotFree b.
Proof.
  induction a as [|c a IH]; app_simpl; simpl; [reflexivity|].
  rewrite IH. now rewrite andb_assoc.
Qed.

(** The first separator of [a.b] sits right after a dot-free [a]. *)
Lemma index_dot (a b : string) :
  dotFree a = true ->
  String.index 0 "." (a +:+ "." +:+ b) = Some (String.length a).
Proof.
  induction a as [|c a IH]; intros Hfree.
  - app_simpl. cbn [String.index String.prefix String.length].
    destruct (ascii_dec "." ".") as [_|Hne]; [|now contradiction Hne].
    destruct b; reflexivity.
  - simpl in Hfree. apply andb_true_iff in Hfree as [Hc Ha].
    app_simpl. cbn [String.index String.prefix String.length].
    destruct (ascii_dec "." c) as [Heq|Hne].
    + subst c. discriminate Hc.
    + now rewrite (IH Ha).
Qed.

Lemma from_after (a b : string) :
  strings.from (Z.of_nat (String.length a) + 1) (a +:+ b)
  = String.substring 1 (String.length b - 1) b.
Proof.
  unfold strings.from.
  replace (Z.to_nat (Z.of_nat (String.length a) + 1))
    with (S (String.length a)) by lia.
  induction a as [|c a IH]; app_simpl; simpl.
  - destruct b; reflexivity.
  - exact IH.
Qed.

(** Cutting a path after its first separator drops a dot-free first
    segment and keeps the rest. *)
Lemma cut_first_segment (a b : string) :
  dotFree a = true ->
  let path := a +:+ "." +:+ b in
  strings.from (strings.Index path "." + 1) path = b.
Proof.
  intros Hfree path. unfold strings.Index, path.
  rewrite (index_dot a b Hfree), from_after. simpl.
  rewrite Nat.sub_0_r. apply substring_whole.
Qed.

Lemma segments_nonempty (s : string) : segments s <> [].
Proof.
  induction s as [|c s IH]; simpl; [discriminate|].
  destruct (Ascii.eqb c "."); [discriminate|].
  destruct (segments s); discriminate.
Qed.

Lemma segments_dotFree (s : string) : dotFree s = true -> segments s = [s].
Proof.
  induction s as [|c s IH]; simpl; intros Hfree; [reflexivity|].
  apply andb_true_iff in Hfree as [Hc Hs].
  apply negb_true_iff in Hc. rewrite Hc, (IH Hs). reflexivity.
Qed.

Lemma segments_cons (a b : string) :
  dotFree a = true -> segments (a +:+ "." +:+ b) = a :: segments b.
Proof.
  induction a as [|c a IH]; app_simpl; simpl; intros Hfree; [reflexivity|].
  apply andb_true_iff in Hfree as [Hc Ha].
  apply negb_true_iff in Hc. rewrite Hc, (IH Ha). reflexivity.
Qed.

Lemma segments_snoc (a b : string) :
  dotFree b = true -> segments (a +:+ "." +:+ b) = segments a ++ [b].
Proof.
  intros Hb. induction a as [|c a IH]; app_simpl; simpl.
  - now rewrite (segments_dotFree b Hb).
  - destruct (Ascii.eqb c "."); [now rewrite IH|].
    rewrite IH. pose proof (segments_nonempty a) as Hne.
    destruct (segments a); [contradiction | reflexivity].
Qed.

(** What the library's loop writes never contains the separator. *)
Lemma strcase_loop_dotFree (s : string) (capNext first : bool) :
  dotFree (strcase.loop capNext first s) = true.
Proof.
  revert capNext first.
  induction s as [|v s IH]; intros capNext first; [reflexivity|].
  cbn [strcase.loop].
  assert (Hletter : forall w,
             strcase.isCap w || strcase.isLow w || strcase.isNum w = true ->
             Ascii.eqb w "." = false).
  { intros w Hw. apply Ascii.eqb_neq. intros ->. vm_compute in Hw.
    discriminate Hw. }
  destruct (strcase.isCap v || strcase.isLow v) eqn:Hletterv.
  - cbn [dotFree]. rewrite IH, andb_true_r. apply negb_true_iff.
    apply Ascii.eqb_neq. intros Hdot.
    destruct capNext; [|destruct first].
    + destruct (strcase.isLow v) eqn:Hlow.
      * clear -Hdot Hlow. unfold strcase.isLow in Hlow.
        unfold strcase.upper in Hdot.
        apply (f_equal nat_of_ascii) in Hdot.
        rewrite nat_ascii_embedding in Hdot by
          (pose proof (nat_ascii_bounded v); lia).
        change (nat_of_ascii ".") with 46%nat in Hdot. lia.
      * subst v. discriminate Hletterv.
    + destruct (strcase.isCap v) eqn:Hcap.
      * clear -Hdot Hcap. unfold strcase.isCap in Hcap.
        unfold strcase.lower in Hdot.
        apply (f_equal nat_of_ascii) in Hdot.
        rewrite nat_ascii_embedding in Hdot by lia.
        change (nat_of_ascii ".") with 46%nat in Hdot. lia.
      * subst v. discriminate Hletterv.
    + subst v. discriminate Hletterv.
  - destruct (strcase.isNum v) eqn:Hnum.
    + cbn [dotFree]. rewrite IH, andb_true_r, (Hletter v); [reflexivity|].
      rewrite Hnum. apply orb_true_r.
    + apply IH.
Qed.

Lemma strcase_ToCamel_dotFree (s : string) : dotFree (strcase.ToCamel s) = true.
Proof. apply strcase_loop_dotFree. Qed.

Lemma append_assoc (a b c : string) : (a +:+ b) +:+ c = a +:+ (b +:+ c).
Proof.
  induction a as [|x a IH]; app_simpl; [reflexivity | now rewrite IH].
Qed.

Lemma concat_snoc (sep x : string) (l : list string) :
  l <> [] -> String.concat sep (l ++ [x]) = String.concat sep l +:+ sep +:+ x.
Proof.
  induction l as [|y l IH]; intros Hne; [contradiction|].
  destruct l as [|z l]; [reflexivity|].
  change (String.concat sep ((y :: z :: l) ++ [x]))
    with (y +:+ sep +:+ String.concat sep ((z :: l) ++ [x])).
  rewrite IH by discriminate.
  change (String.concat sep (y :: z :: l))
    with (y +:+ sep +:+ String.concat sep (z :: l)).
  now rewrite !append_assoc.
Qed.

(** ** The operator table *)

(** The six function names, read off [relational]. *)
Lemma relational_cases (function : string) :
  filterstore.relational function = true ->
  function = filtering.FunctionEquals
  \/ function = filtering.FunctionNotEquals
  \/ function = filtering.FunctionLessThan
  \/ function = filtering.FunctionLessEquals
  \/ function = filtering.FunctionGreaterThan
  \/ function = filtering.FunctionGreaterEquals.
Proof.
  unfold filterstore.relational. rewrite !orb_true_iff, !String.eqb_eq.
  tauto.
Qed.

Lemma relational_false (function : string) :
  filterstore.relational function = false ->
  String.eqb function filtering.FunctionEquals = false
  /\ String.eqb function filtering.FunctionNotEquals = false
  /\ String.eqb function filtering.FunctionLessThan = false
  /\ String.eqb function filtering.FunctionLessEquals = false
  /\ String.eqb function filtering.FunctionGreaterThan = false
  /\ String.eqb function filtering.FunctionGreaterEquals = false.
Proof.
  unfold filterstore.relational. rewrite !orb_false_iff. tauto.
Qed.

(** C5. For each of the six relational function names [operator]
    returns the operator of the table (the left one when [not] is
    false, the right one when it is true): [=] gives [==]/[!=], [!=]
    gives [!=]/[==], [<] gives [<]/[>=], [<=] gives [<=]/[>], [>] gives
    [>]/[<=], [>=] gives [>=]/[<]; for every other function name it
    fails with an InvalidArgument status whose message names the
    function, preceded by "NOT " when the negation flag is set. *)
Theorem operator_table (function : string) (not : bool) :
  filterstore.operator filtering.FunctionEquals not
  = Ok (if not then "!=" else "==")
  /\ filterstore.operator filtering.FunctionNotEquals not
     = Ok (if not then "==" else "!=")
  /\ filterstore.operator filtering.FunctionLessThan not
     = Ok (if not then ">=" else "<")
  /\ filterstore.operator filtering.FunctionLessEquals not
     = Ok (if not then ">" else "<=")
  /\ filterstore.operator filtering.FunctionGreaterThan not
     = Ok (if not then "<=" else ">")
  /\ filterstore.operator filtering.FunctionGreaterEquals not
     = Ok (if not then "<" else ">=")
  /\ (filterstore.relational function = false ->
      filterstore.operator function not
      = Error (mkStatus codes.InvalidArgument
                 ("no Firestore operator for "
                  +:+ (if not then "NOT " else "") +:+ function))).
Proof.
  repeat split; try (destruct not; reflexivity).
  intros Hrel. apply relational_false in Hrel as (H1 & H2 & H3 & H4 & H5 & H6).
  unfold filterstore.operator. rewrite H1, H2, H3, H4, H5, H6. reflexivity.
Qed.

Lemma operator_table_witness :
  filterstore.operator "OR" true
  = Error (mkStatus codes.InvalidArgument "no Firestore operator for NOT OR").
Proof.
  exact (proj2 (proj2 (proj2 (proj2 (proj2 (proj2
           (operator_table "OR" true)))))) eq_refl).
Defined.

(** C6. For every relational function and negation flag, the operator
    returned under the flipped flag is the logical complement of the
    one returned under the flag itself (on any two integers exactly one
    of the two comparisons holds), and flipping the flag twice gives
    the operator back. *)
Theorem operator_negation_complement (function : string) (not : bool) :
  filterstore.relational function = true ->
  exists op op' : string,
    filterstore.operator function not = Ok op
    /\ filterstore.operator function (negb not) = Ok op'
    /\ (forall a b : Z, exists t : bool,
           holds op a b = Some t /\ holds op' a b = Some (negb t))
    /\ filterstore.operator function (negb (negb not)) = Ok op.
Proof.
  intros Hrel.
  destruct (relational_cases function Hrel)
    as [-> | [-> | [-> | [-> | [-> | ->]]]]];
    destruct not;
    (eexists; eexists; split; [reflexivity|]; split; [reflexivity|];
     split; [|reflexivity]);
    intros a b; (eexists; split; [reflexivity|]);
    cbn; f_equal;
    destruct (Z.eqb_spec a b), (Z.ltb_spec a b), (Z.leb_spec a b),
      (Z.ltb_spec b a), (Z.leb_spec b a); simpl; try reflexivity; lia.
Qed.

Lemma operator_negation_complement_witness :
  exists op op' : string,
    filterstore.operator "<=" true = Ok op
    /\ filterstore.operator "<=" (negb true) = Ok op'
    /\ (forall a b : Z, exists t : bool,
           holds op a b = Some t /\ holds op' a b = Some (negb t))
    /\ filterstore.operator "<=" (negb (negb true)) = Ok op.
Proof. exact (operator_negation_complement "<=" true eq_refl). Defined.

(** ** The path resolver *)

Lemma chainNames_nonempty (e : Expr) (names : list string) :
  chainNames e = Some names -> names <> [].
Proof.
  destruct e; simpl; try discriminate.
  - intros [= <-]. discriminate.
  - destruct (chainNames e); [|discriminate].
    intros [= <-]. now destruct l.
Qed.

Lemma toPath_chain_path `{Externals} (e : Expr) (names : list string) :
  chainNames e = Some names ->
  filterstore.toPath e = Ok (String.concat "." (map ToCamel names))
  /\ length names = depth e.
Proof.
  revert names. induction e as [| | id name | id operand IH field | |];
    intros names; simpl; try discriminate.
  - intros [= <-]. split; reflexivity.
  - destruct (chainNames operand) as [inner|] eqn:Hinner; [|discriminate].
    intros [= <-]. destruct (IH inner eq_refl) as [-> Hlen]. split.
    + rewrite map_app. cbn [map]. rewrite concat_snoc; [reflexivity|].
      pose proof (chainNames_nonempty _ _ Hinner). now destruct inner.
    + rewrite length_app. simpl. lia.
Qed.

Lemma segments_concat (l : list string) :
  l <> [] -> Forall (fun s => dotFree s = true) l ->
  segments (String.concat "." l) = l.
Proof.
  induction l as [|x l IH]; intros Hne Hall; [contradiction|].
  inversion Hall as [|? ? Hx Hl]; subst.
  destruct l as [|y l]; [now apply segments_dotFree|].
  change (String.concat "." (x :: y :: l))
    with (x +:+ "." +:+ String.concat "." (y :: l)).
  rewrite segments_cons by assumption. now rewrite IH.
Qed.

(** C7. On a selection chain of [n] nodes (an identifier under [n-1]
    nested selections) [toPath] returns the [n] camel-cased names
    joined by dots, the root identifier first and the outermost
    selected field last; with a casing function that writes no dot the
    path splits into exactly these [n] segments.  On a node that is
    neither an identifier nor a selection it fails with InvalidArgument
    and the message "unable to get path for expression: " followed by
    the printed node. *)
Theorem toPath_select_chain `{Externals} (e : Expr) :
  (forall names : list string,
      chainNames e = Some names ->
      filterstore.toPath e = Ok (String.concat "." (map ToCamel names))
      /\ length names = depth e
      /\ ((forall s, dotFree (ToCamel s) = true) ->
          segments (String.concat "." (map ToCamel names))
          = map ToCamel names
          /\ length (segments (String.concat "." (map ToCamel names)))
             = depth e))
  /\ ((forall id name, e <> Expr_IdentExpr id name) ->
      (forall id operand field, e <> Expr_SelectExpr id operand field) ->
      filterstore.toPath e
      = Error (mkStatus codes.InvalidArgument
                 ("unable to get path for expression: " +:+ fmtExpr e))).
Proof.
  split.
  - intros names Hchain.
    destruct (toPath_chain_path e names Hchain) as [Hpath Hlen].
    split; [assumption|]. split; [assumption|].
    intros Hfree.
    assert (Hseg : segments (String.concat "." (map ToCamel names))
                   = map ToCamel names).
    { apply segments_concat.
      - pose proof (chainNames_nonempty _ _ Hchain). now destruct names.
      - clear -Hfree. induction names; simpl; constructor; auto. }
    split; [exact Hseg|]. now rewrite Hseg, length_map.
  - intros Hident Hselect. destruct e; try reflexivity.
    + now contradiction (Hident Id Name).
    + now contradiction (Hselect Id e Field).
Qed.

Lemma toPath_select_chain_witness :
  let e := Expr_SelectExpr 3 (Expr_SelectExpr 2 (Expr_IdentExpr 1 "user")
                                "home_address") "zip_code" in
  (@filterstore.toPath strcaseExternals e = Ok "User.HomeAddress.ZipCode"
   /\ 3%nat = depth e
   /\ segments "User.HomeAddress.ZipCode" = ["User"; "HomeAddress"; "ZipCode"])
  /\ @filterstore.toPath strcaseExternals
       (Expr_ConstExpr 4 (Constant_Int64Value 7))
     = Error (mkStatus codes.InvalidArgument
                "unable to get path for expression: <expr>").
Proof.
  intros e. split.
  - destruct (proj1 (@toPath_select_chain strcaseExternals e)
                ["user"; "home_address"; "zip_code"] eq_refl)
      as (Hpath & Hlen & Hseg).
    split; [exact Hpath | split; [exact Hlen |]].
    exact (proj1 (Hseg strcase_ToCamel_dotFree)).
  - apply (proj2 (@toPath_select_chain strcaseExternals
                    (Expr_ConstExpr 4 (Constant_Int64Value 7))));
      intros; discriminate.
Defined.

(** ** The inequality guard *)

Lemma setInequality_unset (path : string) (q : query) :
  query_inequality q = "" ->
  filterstore.setInequality path q = (Ok tt, set_inequality path q).
Proof. intros Hq. unfold filterstore.setInequality. now rewrite Hq. Qed.

Lemma setInequality_same (path : string) (q : query) :
  query_inequality q = path -> path <> "" ->
  filterstore.setInequality path q = (Ok tt, q).
Proof.
  intros Hq Hpath. unfold filterstore.setInequality. rewrite Hq.
  now rewrite (eqb_false_of_neq _ _ Hpath), String.eqb_refl.
Qed.

Lemma setInequality_other (path : string) (q : query) :
  query_inequality q <> "" -> query_inequality q <> path ->
  filterstore.setInequality path q = (Error errSingleField, q).
Proof.
  intros Hset Hother. unfold filterstore.setInequality.
  now rewrite (eqb_false_of_neq _ _ Hset), (eqb_false_of_neq _ _ Hother).
Qed.


(** ** Calls, one function at a time *)

Lemma transpile_not `{Externals} (id : Z) (e : Expr) (not : bool) :
  filterstore.transpile (Expr_CallExpr id filtering.FunctionNot [e]) not
  = filterstore.transpile e (negb not).
Proof. reflexivity. Qed.

Lemma transpile_has `{Externals} (id : Z) (args : list Expr) (not : bool) :
  filterstore.transpile (Expr_CallExpr id filtering.FunctionHas args) not
  = filterstore.transpileHas args not.
Proof. reflexivity. Qed.


Lemma transpile_relational `{Externals} (id : Z) (function : string)
    (args : list Expr) (not : bool) :
  filterstore.relational function = true ->
  filterstore.transpile (Expr_CallExpr id function args) not
  = filterstore.transpileEquality function args not.
Proof.
  intros Hrel.
  destruct (relational_cases function Hrel)
    as [-> | [-> | [-> | [-> | [-> | ->]]]]]; reflexivity.
Qed.

Lemma unwrapConst_some (c : Constant) :
  exists v : value, filterstore.unwrapConst (Some c) = Ok v.
Proof. destruct c; eexists; reflexivity. Qed.

(** The comparison procedure once the operator and the path are known. *)
Lemma transpileEquality_run `{Externals} (function : string) (a0 a1 : Expr)
    (not : bool) (op path : string) (q : query) :
  filterstore.operator function not = Ok op ->
  filterstore.toPath a0 = Ok path ->
  filterstore.transpileEquality function [a0; a1] not q
  = bind (if String.eqb op "==" then ret tt
          else filterstore.setInequality path)
         (fun _ =>
            bind (lift (filterstore.unwrapConst (GetConstExpr a1)))
                 (fun v => modify (on_q (firestore.Where path op v)))) q.
Proof.
  intros Hop Hpath. unfold filterstore.transpileEquality, bind, lift.
  rewrite Hop, Hpath. now destruct (String.eqb op "==").
Qed.

(** A resolved operator is one of the six of the table. *)
Lemma operator_range (function : string) (not : bool) (op : string) :
  filterstore.operator function not = Ok op ->
  op = "==" \/ op = "!=" \/ op = "<" \/ op = "<=" \/ op = ">" \/ op = ">=".
Proof.
  unfold filterstore.operator.
  repeat match goal with
         | |- context [if String.eqb ?a ?b then _ else _] =>
             destruct (String.eqb a b)
         end;
    try destruct not; intros [= <-]; tauto.
Qed.



(** With another non-empty path in the slot, a comparison whose
    operator is not [==] is turned down and changes nothing. *)
Lemma comparison_rejected `{Externals} (function : string) (a0 a1 : Expr)
    (not : bool) (op path : string) (q : query) :
  filterstore.operator function not = Ok op ->
  filterstore.toPath a0 = Ok path ->
  op <> "==" ->
  query_inequality q <> "" -> query_inequality q <> path ->
  filterstore.transpileEquality function [a0; a1] not q
  = (Error errSingleField, q).
Proof.
  intros Hop Hpath Hne Hset Hother.
  rewrite (transpileEquality_run _ _ _ _ _ _ _ Hop Hpath).
  unfold bind. rewrite (eqb_false_of_neq _ _ Hne).
  now rewrite (setInequality_other _ _ Hset Hother).
Qed.





(** ** The comparison procedure *)

(** C1 (amended). In [transpileEquality], once the operator and the
    path are resolved, [setInequality path] is called exactly when the
    operator is not [==], that is for [!=], [<], [<=], [>] and [>=]:
    the procedure is "claim unless [==], then unwrap the constant and
    add the predicate".  With [==] the inequality field is left as it
    was and the single-field status cannot arise; with any other
    operator, [!=] included, a free slot is taken by the path and a
    slot held by another non-empty path makes the call fail. *)
Theorem comparison_claims_unless_equals `{Externals} (function : string)
    (a0 a1 : Expr) (not : bool) (op path : string) :
  filterstore.operator function not = Ok op ->
  filterstore.toPath a0 = Ok path ->
  let run := filterstore.transpileEquality function [a0; a1] not in
  (forall q : query,
      run q = bind (if String.eqb op "==" then ret tt
                    else filterstore.setInequality path)
                (fun _ =>
                   bind (lift (filterstore.unwrapConst (GetConstExpr a1)))
                     (fun v => modify (on_q (firestore.Where path op v)))) q)
  /\ (op <> "==" <->
      op = "!=" \/ op = "<" \/ op = "<=" \/ op = ">" \/ op = ">=")
  /\ (op = "==" ->
      forall q : query,
        query_inequality (snd (run q)) = query_inequality q
        /\ fst (run q) <> Error errSingleField)
  /\ (op <> "==" ->
      forall q : query,
        (query_inequality q = "" -> query_inequality (snd (run q)) = path)
        /\ (query_inequality q <> "" -> query_inequality q <> path ->
            run q = (Error errSingleField, q))).
Proof.
  intros Hop Hpath run. subst run. split; [|split; [|split]].
  - intros q. now apply transpileEquality_run.
  - pose proof (operator_range _ _ _ Hop) as Hrange. split.
    + intros Hne. destruct Hrange as [-> | Hrest]; [contradiction | exact Hrest].
    + intros [-> | [-> | [-> | [-> | ->]]]]; discriminate.
  - intros -> q. rewrite (transpileEquality_run _ _ _ _ _ _ _ Hop Hpath).
    unfold bind, lift, ret, modify. cbn [String.eqb Ascii.eqb Bool.eqb].
    destruct (GetConstExpr a1) as [[]|]; cbn; split;
      try reflexivity; discriminate.
  - intros Hne q. split.
    + intros Hunset. rewrite (transpileEquality_run _ _ _ _ _ _ _ Hop Hpath).
      unfold bind, lift, modify. rewrite (eqb_false_of_neq _ _ Hne).
      rewrite (setInequality_unset _ _ Hunset).
      destruct (filterstore.unwrapConst (GetConstExpr a1)); reflexivity.
    + intros Hset Hother.
      now apply (comparison_rejected function a0 a1 not op path q).
Qed.

Lemma comparison_claims_unless_equals_witness :
  let q := filterstore.newQuery "users/u1" "people" 10
             (mkCheckedExpr ∅ Expr_nil) in
  let run :=
    @filterstore.transpileEquality strcaseExternals "="
      [Expr_IdentExpr 2 "age"; Expr_ConstExpr 3 (Constant_Int64Value 5)]
      true in
  query_inequality q = "" /\ query_inequality (snd (run q)) = "Age".
Proof.
  intros q run. split; [reflexivity|].
  refine (proj1 (proj2 (proj2 (proj2
            (@comparison_claims_unless_equals strcaseExternals "="
               (Expr_IdentExpr 2 "age")
               (Expr_ConstExpr 3 (Constant_Int64Value 5)) true "!=" "Age"
               eq_refl eq_refl))) _ q) eq_refl).
  discriminate.
Defined.

(** The claim fails as stated for the not-equals operator: [age != 5]
    on a fresh state takes the inequality slot for [Age], and the
    comparison [height < 3] that follows in the same filter is turned
    down. *)
Lemma not_equals_occupies_slot :
  let q := filterstore.newQuery "users/u1" "people" 10
             (mkCheckedExpr ∅ Expr_nil) in
  let ne := Expr_CallExpr 1 "!="
              [Expr_IdentExpr 2 "age";
               Expr_ConstExpr 3 (Constant_Int64Value 5)] in
  let lt := Expr_CallExpr 4 "<"
              [Expr_IdentExpr 5 "height";
               Expr_ConstExpr 6 (Constant_Int64Value 3)] in
  filterstore.operator "!=" false = Ok "!="
  /\ query_inequality q = ""
  /\ query_inequality (snd (@filterstore.transpile strcaseExternals ne false q))
     = "Age"
  /\ fst (@filterstore.transpile strcaseExternals
            (Expr_CallExpr 7 "AND" [ne; lt]) false q)
     = Error errSingleField.
Proof. repeat split. Qed.

(** C10. [unwrapConst] panics on a nil constant and on nothing else,
    and [transpileEquality] hands it [e.Args[1].GetConstExpr()]
    unchecked: a relational call whose first argument resolves to a
    path the guard lets through and whose second argument is not a
    constant node ends in the nil dereference, not in an
    InvalidArgument status. *)
Theorem comparison_nil_constant_panics `{Externals} (id : Z)
    (function : string) (a0 a1 : Expr) (not : bool) (op path : string)
    (q : query) :
  filterstore.relational function = true ->
  filterstore.operator function not = Ok op ->
  filterstore.toPath a0 = Ok path ->
  GetConstExpr a1 = None ->
  query_inequality q = "" ->
  filterstore.unwrapConst None = Panic
  /\ (forall c : Constant, filterstore.unwrapConst (Some c) <> Panic)
  /\ fst (filterstore.transpileEquality function [a0; a1] not q) = Panic
  /\ fst (filterstore.transpile (Expr_CallExpr id function [a0; a1]) not q)
     = Panic.
Proof.
  intros Hrel Hop Hpath Hnil Hunset.
  assert (Hrun : fst (filterstore.transpileEquality function [a0; a1] not q)
                 = Panic).
  { rewrite (transpileEquality_run _ _ _ _ _ _ _ Hop Hpath), Hnil.
    unfold bind, lift, ret.
    destruct (String.eqb op "=="); [reflexivity|].
    now rewrite (setInequality_unset _ _ Hunset). }
  split; [reflexivity|]. split; [intros c; destruct c; discriminate|].
  split; [exact Hrun|].
  now rewrite (transpile_relational _ _ _ _ Hrel).
Qed.

Lemma comparison_nil_constant_panics_witness :
  fst (@filterstore.transpile strcaseExternals
         (Expr_CallExpr 1 "<" [Expr_IdentExpr 2 "age"; Expr_IdentExpr 3 "limit"])
         false
         (filterstore.newQuery "users/u1" "people" 10
            (mkCheckedExpr ∅ Expr_nil)))
  = Panic.
Proof.
  exact (proj2 (proj2 (proj2
           (@comparison_nil_constant_panics strcaseExternals 1 "<"
              (Expr_IdentExpr 2 "age") (Expr_IdentExpr 3 "limit") false
              "<" "Age"
              (filterstore.newQuery "users/u1" "people" 10
                 (mkCheckedExpr ∅ Expr_nil))
              eq_refl eq_refl eq_refl eq_refl eq_refl)))).
Defined.

(** ** The existence procedure *)

(** The path of [has(a0, name)] when [a0] is a selection chain: the
    root segment is cut off, the cased [name] is added at the end. *)
Lemma hasPath_chain `{Externals} (root name : string) (fields : list string) :
  dotFree (ToCamel root) = true ->
  filterstore.hasPath (String.concat "." (map ToCamel (root :: fields))) name
  = String.concat "." (map ToCamel (fields ++ [name])).
Proof.
  intros Hroot. unfold filterstore.hasPath.
  destruct fields as [|f fields].
  - cbn [map app String.concat]. now apply cut_first_segment.
  - replace (String.concat "." (map ToCamel (root :: f :: fields))
             +:+ "." +:+ ToCamel name)
      with (ToCamel root +:+ "."
            +:+ String.concat "." (map ToCamel ((f :: fields) ++ [name]))).
    + now apply cut_first_segment.
    + rewrite (map_app ToCamel (f :: fields) [name]). cbn [map].
      rewrite concat_snoc by discriminate.
      change (String.concat "." (ToCamel root :: ToCamel f :: map ToCamel fields))
        with (ToCamel root +:+ "."
              +:+ String.concat "." (ToCamel f :: map ToCamel fields)).
      now rewrite !append_assoc.
Qed.

(** C2 (amended). For a negated [has(a0, name)] whose first argument is
    a message-typed selection chain [root.f1...fk] and whose second
    argument is the string constant [name], transpilation succeeds and
    adds exactly one predicate, [path == null], and nothing else; the
    path is the cased [f1...fk.name]: the segment of the chain's root
    is the one cut off.  For the filter [NOT has(profile, "bio")] with
    [profile] an identifier the predicate is therefore on the cased
    [bio] alone ([Bio == null]); it is on [Profile.Bio] when the first
    argument is a selection [x.profile]. *)
Theorem not_has_drops_root `{Externals} (id ih ic ida : Z) (a0 : Expr)
    (m root name : string) (fields : list string) (q : query) :
  ExprId a0 = Some ida ->
  query_types q !! ida = Some (Type_MessageType m) ->
  chainNames a0 = Some (root :: fields) ->
  dotFree (ToCamel root) = true ->
  let path := String.concat "." (map ToCamel (fields ++ [name])) in
  let r := filterstore.transpile
             (Expr_CallExpr id filtering.FunctionNot
                [Expr_CallExpr ih filtering.FunctionHas
                   [a0; Expr_ConstExpr ic (Constant_StringValue name)]])
             false q in
  fst r = Ok tt
  /\ firestore.filters (query_q (snd r))
     = firestore.filters (query_q q) ++ [(path, "==", v_nil)]
  /\ firestore.orders (query_q (snd r)) = firestore.orders (query_q q)
  /\ query_inequality (snd r) = query_inequality q
  /\ query_startAfter (snd r) = query_startAfter q.
Proof.
  intros Hid Htype Hchain Hroot path r.
  assert (Hr : r = (Ok tt, on_q (firestore.Where path "==" v_nil) q)).
  { subst r path. rewrite transpile_not, transpile_has. cbn [negb].
    unfold filterstore.transpileHas. rewrite Hid, Htype.
    unfold bind, lift, modify.
    destruct (toPath_chain_path a0 _ Hchain) as [-> _].
    cbn [GetConstExpr GetStringValue].
    now rewrite (hasPath_chain root name fields Hroot). }
  rewrite Hr. repeat split.
Qed.

Lemma not_has_drops_root_witness :
  let q := filterstore.newQuery "users/u1" "people" 10
             (mkCheckedExpr {[ 2 := Type_MessageType "Profile" ]} Expr_nil) in
  let r := @filterstore.transpile strcaseExternals
             (Expr_CallExpr 1 "NOT"
                [Expr_CallExpr 3 ":"
                   [Expr_IdentExpr 2 "profile";
                    Expr_ConstExpr 4 (Constant_StringValue "bio")]])
             false q in
  fst r = Ok tt
  /\ firestore.filters (query_q (snd r)) = [("Bio", "==", v_nil)].
Proof.
  intros q r.
  destruct (@not_has_drops_root strcaseExternals 1 3 4 2
              (Expr_IdentExpr 2 "profile") "Profile" "profile" "bio" []
              q eq_refl eq_refl eq_refl eq_refl) as (Hok & Hfilters & _).
  split; [exact Hok | exact Hfilters].
Defined.

(** The claim fails as stated: for [NOT has(profile, "bio")] with
    [profile] message-typed, the one predicate of the final query is
    [Bio == null], not [profile.bio == null]. *)
Lemma not_has_profile_bio_counterexample :
  let types : gmap Z TypeKind := {[ 2 := Type_MessageType "Profile" ]} in
  let filter :=
    mkCheckedExpr types
      (Expr_CallExpr 1 "NOT"
         [Expr_CallExpr 3 ":"
            [Expr_IdentExpr 2 "profile";
             Expr_ConstExpr 4 (Constant_StringValue "bio")]]) in
  let built (predicates : list (string * string * value)) :=
    Ok (mkquery
          (firestore.mkQuery "users/u1/people" (Some 10) predicates [] None)
          types "" []) in
  @filterstore.Transpile strcaseExternals "users/u1" "people" "" 10 filter
  = built [("Bio", "==", v_nil)]
  /\ @filterstore.Transpile strcaseExternals "users/u1" "people" "" 10 filter
     <> built [("profile.bio", "==", v_nil)].
Proof. split; [reflexivity | discriminate]. Qed.

(** ** Orderings and cursor values *)

(** Induction on expressions with the hypothesis for every argument of
    a call. *)
Lemma Expr_args_ind (P : Expr -> Prop) :
  P Expr_nil ->
  (forall id c, P (Expr_ConstExpr id c)) ->
  (forall id name, P (Expr_IdentExpr id name)) ->
  (forall id operand field, P operand -> P (Expr_SelectExpr id operand field)) ->
  (forall id function args, Forall P args -> P (Expr_CallExpr id function args)) ->
  (forall id, P (Expr_OtherKind id)) ->
  forall e, P e.
Proof.
  intros Hnil Hconst Hident Hselect Hcall Hother.
  fix IH 1. intros [|id c|id name|id operand field|id function args|id].
  - exact Hnil.
  - apply Hconst.
  - apply Hident.
  - apply Hselect, IH.
  - apply Hcall.
    exact ((fix all (l : list Expr) : Forall P l :=
              match l with
              | [] => List.Forall_nil P
              | x :: rest => List.Forall_cons P x rest (IH x) (all rest)
              end) args).
  - apply Hother.
Qed.

Lemma extends_refl (q : query) : extends q q [].
Proof. unfold extends. cbn [map]. now rewrite !app_nil_r. Qed.

Lemma extends_trans (q1 q2 q3 : query) (ps ps' : list string) :
  extends q1 q2 ps -> extends q2 q3 ps' -> extends q1 q3 (ps ++ ps').
Proof.
  intros (Ho & Hc & Hs & Ht) (Ho' & Hc' & Hs' & Ht'). unfold extends.
  rewrite Ho', Ho, Hc', Hc, Hs', Hs, Ht', Ht, !map_app, !app_assoc.
  repeat split.
Qed.

Lemma setInequality_extends (path : string) (q : query) :
  extends q (snd (filterstore.setInequality path q)) [].
Proof.
  unfold filterstore.setInequality.
  destruct (String.eqb (query_inequality q) "");
    [|destruct (negb (String.eqb (query_inequality q) path))];
    cbn [snd]; unfold extends; cbn; now rewrite !app_nil_r.
Qed.

Lemma transpileEquality_extends `{Externals} (function : string)
    (args : list Expr) (not : bool) (q : query) :
  extends q (snd (filterstore.transpileEquality function args not q)) [].
Proof.
  unfold filterstore.transpileEquality.
  destruct args as [|a0 [|a1 [|a2 args]]]; try apply extends_refl.
  unfold bind, lift, ret, modify.
  destruct (filterstore.operator function not) as [op| |];
    try apply extends_refl.
  destruct (filterstore.toPath a0) as [path| |]; try apply extends_refl.
  assert (Hguard : forall r q1,
             (if negb (String.eqb op "==")
              then filterstore.setInequality path
              else fun s => (Ok tt, s)) q = (r, q1) -> extends q q1 []).
  { intros r q1. destruct (negb (String.eqb op "==")).
    - intros Hrun. pose proof (setInequality_extends path q) as Hext.
      now rewrite Hrun in Hext.
    - intros [= _ <-]. apply extends_refl. }
  destruct ((if negb (String.eqb op "==")
             then filterstore.setInequality path
             else fun s => (Ok tt, s)) q) as [r q1] eqn:Hrun.
  specialize (Hguard r q1 eq_refl).
  destruct r as [[]| |]; cbn [snd]; try exact Hguard.
  destruct (filterstore.unwrapConst (GetConstExpr a1)); cbn [snd];
    exact Hguard.
Qed.

(** What [transpileHas] does to the orderings and the cursor list:
    nothing, or one ordering together with one null cursor. *)
Lemma transpileHas_extends `{Externals} (args : list Expr) (not : bool)
    (q : query) :
  exists paths : list string,
    extends q (snd (filterstore.transpileHas args not q)) paths.
Proof.
  unfold filterstore.transpileHas.
  destruct args as [|a0 [|a1 [|a2 args]]];
    try (exists []; apply extends_refl).
  destruct (ExprId a0) as [id|]; [|exists []; apply extends_refl].
  destruct (query_types q !! id) as [[m| | |]|];
    try (exists []; apply extends_refl).
  unfold bind, lift, modify.
  destruct (filterstore.toPath a0) as [path| |];
    try (exists []; apply extends_refl).
  set (full := filterstore.hasPath path (GetStringValue (GetConstExpr a1))).
  destruct not.
  - exists []. unfold extends. cbn. now rewrite !app_nil_r.
  - pose proof (setInequality_extends full q) as Hext.
    destruct (filterstore.setInequality full q) as [[[]| |] q1];
      cbn [snd] in *; try (exists []; exact Hext).
    exists [full]. destruct Hext as (Ho & Hc & Hs & Ht).
    unfold extends. cbn. rewrite Ho, Hc, Hs, Ht, !app_nil_r.
    repeat split.
Qed.

(** Whatever the outcome of the walk, the orderings it added and the
    cursor values it added correspond one to one. *)
Lemma transpile_extends `{Externals} (e : Expr) :
  forall (not : bool) (q : query),
  exists paths : list string,
    extends q (snd (filterstore.transpile e not q)) paths.
Proof.
  induction e as [|id c|id name|id operand field _|id function args IH|id]
    using Expr_args_ind; intros not q;
    try (exists []; apply extends_refl).
  cbn [filterstore.transpile]. unfold filterstore.transpileCallWith.
  destruct (String.eqb function filtering.FunctionNot).
  { destruct args as [|a0 [|a1 args]]; try (exists []; apply extends_refl).
    inversion IH as [|? ? Ha0 _]; subst. apply Ha0. }
  destruct (String.eqb function filtering.FunctionHas).
  { apply transpileHas_extends. }
  destruct (filterstore.relational function).
  { exists []. apply transpileEquality_extends. }
  destruct (String.eqb function filtering.FunctionAnd);
    [|exists []; apply extends_refl].
  destruct args as [|a0 [|a1 [|a2 args]]]; try (exists []; apply extends_refl).
  inversion IH as [|? ? Ha0 IH']; subst.
  inversion IH' as [|? ? Ha1 _]; subst.
  unfold bind. destruct (Ha0 not q) as [ps Hps].
  destruct (filterstore.transpile a0 not q) as [[[]| |] q1]; cbn [snd] in *;
    try (exists ps; exact Hps).
  destruct (Ha1 not q1) as [ps' Hps'].
  exists (ps ++ ps'). now apply (extends_trans q q1).
Qed.

(** The pagination step, field by field. *)
Lemma paginate_fields (pageToken : string) (q : query) :
  let token := if String.eqb pageToken "" then [] else [pageToken] in
  let q' := filterstore.paginate pageToken q in
  firestore.orders (query_q q')
  = firestore.orders (query_q q)
    ++ map (fun _ => (firestore.DocumentID, firestore.Asc)) token
  /\ query_startAfter q' = query_startAfter q ++ map v_string token
  /\ firestore.startVals (query_q q')
     = match query_startAfter q' with
       | [] => firestore.startVals (query_q q)
       | _ :: _ => Some (query_startAfter q')
       end
  /\ firestore.filters (query_q q') = firestore.filters (query_q q)
  /\ query_inequality q' = query_inequality q.
Proof.
  destruct q as [fq types held cursors]. unfold filterstore.paginate.
  destruct (String.eqb pageToken ""); destruct cursors; cbn;
    rewrite ?app_nil_r; repeat split.
Qed.

(** C4. Every ordering clause added by the walk or by the pagination
    step comes with one cursor value, in the same position: whatever
    the walk does to a query state, it appends as many ascending
    orderings as null cursors, one pair per [has] taken as an ordering;
    a [has] without negation on a message-typed operand that the guard
    accepts appends exactly one ascending ordering on its path and one
    null cursor; and in the query state [Transpile] ends with, the
    orderings are those of the walk followed by the document-identifier
    ordering when there is a page token, the cursor list holds a null
    for each of the former and the token for the latter, and that list
    is the start-after argument. *)
Theorem orderings_match_cursors `{Externals} (e : Expr) (not : bool)
    (q0 : query) (parent collection pageToken : string) (pageSize : Z)
    (filter : CheckedExpr) :
  (exists paths : list string,
      let q1 := snd (filterstore.transpile e not q0) in
      firestore.orders (query_q q1)
      = firestore.orders (query_q q0)
        ++ map (fun p => (p, firestore.Asc)) paths
      /\ query_startAfter q1
         = query_startAfter q0 ++ map (fun _ => v_nil) paths)
  /\ (forall (a0 a1 : Expr) (id : Z) (m path : string),
         ExprId a0 = Some id ->
         query_types q0 !! id = Some (Type_MessageType m) ->
         filterstore.toPath a0 = Ok path ->
         let full :=
           filterstore.hasPath path (GetStringValue (GetConstExpr a1)) in
         fst (filterstore.setInequality full q0) = Ok tt ->
         let q1 := snd (filterstore.transpileHas [a0; a1] false q0) in
         firestore.orders (query_q q1)
         = firestore.orders (query_q q0) ++ [(full, firestore.Asc)]
         /\ query_startAfter q1 = query_startAfter q0 ++ [v_nil])
  /\ (forall qf : query,
         filterstore.Transpile parent collection pageToken pageSize filter
         = Ok qf ->
         exists paths : list string,
           let token := if String.eqb pageToken "" then [] else [pageToken] in
           firestore.orders (query_q qf)
           = map (fun p => (p, firestore.Asc)) paths
             ++ map (fun _ => (firestore.DocumentID, firestore.Asc)) token
           /\ query_startAfter qf
              = map (fun _ => v_nil) paths ++ map v_string token
           /\ length (firestore.orders (query_q qf))
              = length (query_startAfter qf)
           /\ (query_startAfter qf <> [] ->
               firestore.startVals (query_q qf)
               = Some (query_startAfter qf))).
Proof.
  split; [|split].
  - destruct (transpile_extends e not q0) as (paths & Ho & Hc & _).
    exists paths. split; assumption.
  - intros a0 a1 id m path Hid Htype Hpath full Hguard q1. subst q1.
    unfold filterstore.transpileHas. rewrite Hid, Htype.
    unfold bind, lift, modify. rewrite Hpath. fold full.
    pose proof (setInequality_extends full q0) as (Ho & Hc & _).
    destruct (filterstore.setInequality full q0) as [r q1].
    cbn [fst snd] in *. subst r. cbn. rewrite app_nil_r in Ho, Hc.
    now rewrite Ho, Hc.
  - intros qf. unfold filterstore.Transpile.
    set (q := filterstore.newQuery parent collection pageSize filter).
    destruct (transpile_extends (GetExpr filter) false q)
      as (paths & Ho & Hc & _).
    destruct (filterstore.transpile (GetExpr filter) false q)
      as [[[]| |] qw]; try discriminate.
    intros [= <-]. cbn [snd] in Ho, Hc.
    change (firestore.orders (query_q q))
      with (@nil (string * firestore.Direction)) in Ho.
    change (query_startAfter q) with (@nil value) in Hc.
    cbn [app] in Ho, Hc. exists paths.
    destruct (paginate_fields pageToken qw) as (Ho' & Hc' & Hs' & _).
    cbn zeta in *. rewrite Ho in Ho'. rewrite Hc in Hc'.
    split; [exact Ho'|]. split; [exact Hc'|]. split.
    + now rewrite Ho', Hc', !length_app, !length_map.
    + intros Hne. rewrite Hs'.
      destruct (query_startAfter (filterstore.paginate pageToken qw));
        [contradiction | reflexivity].
Qed.

Lemma orderings_match_cursors_witness :
  let types : gmap Z TypeKind := {[ 2 := Type_MessageType "Profile" ]} in
  let has := Expr_CallExpr 1 ":"
               [Expr_SelectExpr 2 (Expr_IdentExpr 3 "person") "profile";
                Expr_ConstExpr 4 (Constant_StringValue "bio")] in
  exists qf : query,
    @filterstore.Transpile strcaseExternals "users/u1" "people" "doc42" 10
      (mkCheckedExpr types has) = Ok qf
    /\ firestore.orders (query_q qf)
       = [("Profile.Bio", firestore.Asc); ("__name__", firestore.Asc)]
    /\ query_startAfter qf = [v_nil; v_string "doc42"]
    /\ firestore.startVals (query_q qf) = Some [v_nil; v_string "doc42"].
Proof.
  intros types has. eexists. split; [reflexivity|].
  destruct (proj2 (proj2
              (@orderings_match_cursors strcaseExternals Expr_nil false
                 (filterstore.newQuery "users/u1" "people" 10
                    (mkCheckedExpr types has))
                 "users/u1" "people" "doc42" 10 (mkCheckedExpr types has)))
              _ eq_refl) as (paths & _ & _ & _ & Hstart).
  split; [reflexivity|]. split; [reflexivity|].
  apply Hstart. discriminate.
Defined.

(** ** The earlier revision: walk and entry point *)

Lemma part_000_transpileHas_extends `{Externals} (args : list Expr)
    (not : bool) (q : query) :
  exists paths : list string,
    extends q (snd (part_000.transpileHas args not q)) paths.
Proof.
  unfold part_000.transpileHas.
  destruct args as [|a0 [|a1 [|a2 args]]];
    try (exists []; apply extends_refl).
  destruct (ExprId a0) as [id|]; [|exists []; apply extends_refl].
  destruct (query_types q !! id) as [[m| | |]|];
    try (exists []; apply extends_refl).
  unfold bind, lift, modify.
  destruct (part_000.toPath a0) as [path| |];
    try (exists []; apply extends_refl).
  set (full := filterstore.hasPath path (GetStringValue (GetConstExpr a1))).
  destruct not.
  - exists []. unfold extends. cbn. now rewrite !app_nil_r.
  - destruct (String.eqb (query_inequality q) "");
      [|destruct (negb (String.eqb (query_inequality q) full))];
      cbn [snd]; try (exists []; apply extends_refl);
      exists [full]; unfold extends; cbn; repeat split.
Qed.

Lemma part_000_transpile_extends `{Externals} (e : Expr) :
  forall (not : bool) (q : query),
  exists paths : list string,
    extends q (snd (part_000.transpile e not q)) paths.
Proof.
  induction e as [|id c|id name|id operand field _|id function args IH|id]
    using Expr_args_ind; intros not q;
    try (exists []; apply extends_refl).
  cbn [part_000.transpile]. unfold part_000.transpileCallWith.
  destruct (String.eqb function filtering.FunctionNot).
  { destruct args as [|a0 [|a1 args]]; try (exists []; apply extends_refl).
    inversion IH as [|? ? Ha0 _]; subst. apply Ha0. }
  destruct (String.eqb function filtering.FunctionHas).
  { apply part_000_transpileHas_extends. }
  destruct (filterstore.relational function);
    exists []; apply extends_refl.
Qed.

Lemma paginate_stitched (pageToken : string) (qw : query) :
  firestore.startVals (query_q qw) = None ->
  stitched pageToken qw (filterstore.paginate pageToken qw).
Proof.
  intros Hnone.
  destruct (paginate_fields pageToken qw) as (Ho & Hc & Hs & _).
  cbn zeta in *. rewrite Hnone in Hs. split; [exact Hs|].
  intros Htoken. rewrite (eqb_false_of_neq _ _ Htoken) in Ho, Hc.
  cbn [map] in Ho, Hc. split; [exact Ho|]. split; [exact Hc|].
  rewrite Hs, Hc. split; [apply last_snoc|].
  now destruct (query_startAfter qw).
Qed.

(** C8. When the walk succeeds, [Transpile] ends with a query state in
    which the cursor list is the start-after argument exactly when it
    is not empty, and, for a non-empty page token, the orderings are
    those of the walk followed by the ascending document-identifier
    ordering, the last cursor value is the token, and the start-after
    argument is set; in filterstore.go and in the earlier revision
    alike (there for a page size that is not negative and a filter
    that parses). *)
Theorem page_token_last_cursor `{Externals}
    (ParseFilter : part_000.ListRequest -> result CheckedExpr) :
  (forall (parent collection pageToken : string) (pageSize : Z)
          (filter : CheckedExpr) (qw : query),
      filterstore.transpile (GetExpr filter) false
        (filterstore.newQuery parent collection pageSize filter)
      = (Ok tt, qw) ->
      exists qf : query,
        filterstore.Transpile parent collection pageToken pageSize filter
        = Ok qf
        /\ stitched pageToken qw qf)
  /\ (forall (t : part_000.transpiler) (req : part_000.ListRequest)
             (filter : CheckedExpr) (qw : query),
         0 <= part_000.GetPageSize req ->
         ParseFilter req = Ok filter ->
         part_000.transpile (GetExpr filter) false
           (mkquery
              (firestore.Collection
                 (part_000.GetParent req +:+ "/" +:+ part_000.collection t))
              (TypeMap filter) "" [])
         = (Ok tt, qw) ->
         exists qf : query,
           part_000.Transpile ParseFilter t req = Ok qf
           /\ stitched (part_000.GetPageToken req) qw qf).
Proof.
  split.
  - intros parent collection pageToken pageSize filter qw Hwalk.
    unfold filterstore.Transpile. rewrite Hwalk. eexists.
    split; [reflexivity|]. apply paginate_stitched.
    destruct (transpile_extends (GetExpr filter) false
                (filterstore.newQuery parent collection pageSize filter))
      as (paths & _ & _ & Hs & _).
    rewrite Hwalk in Hs. exact Hs.
  - intros t req filter qw Hsize Hparse Hwalk.
    unfold part_000.Transpile, part_000.pageSizeSwitch.
    destruct (Z.ltb_spec (part_000.GetPageSize req) 0) as [Hneg|_]; [lia|].
    assert (Hok : exists n,
               (if part_000.GetPageSize req =? 0
                then Ok (part_000.defaultPageSize t)
                else if part_000.GetPageSize req >? part_000.maxPageSize t
                     then Ok (part_000.maxPageSize t)
                     else Ok (part_000.GetPageSize req)) = Ok n).
    { destruct (part_000.GetPageSize req =? 0); [eexists; reflexivity|].
      destruct (part_000.GetPageSize req >? part_000.maxPageSize t);
        eexists; reflexivity. }
    destruct Hok as [n ->]. rewrite Hparse, Hwalk. eexists.
    split; [reflexivity|]. apply paginate_stitched.
    destruct (part_000_transpile_extends (GetExpr filter) false
                (mkquery
                   (firestore.Collection
                      (part_000.GetParent req +:+ "/"
                       +:+ part_000.collection t))
                   (TypeMap filter) "" []))
      as (paths & _ & _ & Hs & _).
    rewrite Hwalk in Hs. exact Hs.
Qed.

Lemma page_token_last_cursor_witness :
  let filter :=
    mkCheckedExpr ∅
      (Expr_CallExpr 1 ">"
         [Expr_IdentExpr 2 "age";
          Expr_ConstExpr 3 (Constant_Int64Value 30)]) in
  exists qw qf : query,
    @filterstore.Transpile strcaseExternals "users/u1" "people" "doc42" 10
      filter = Ok qf
    /\ firestore.orders (query_q qf) = [("__name__", firestore.Asc)]
    /\ stitched "doc42" qw qf.
Proof.
  intros filter.
  destruct (proj1 (@page_token_last_cursor strcaseExternals
                     (fun _ => Ok filter))
              "users/u1" "people" "doc42" 10 filter _ eq_refl)
    as (qf & Hrun & Hstitched).
  eexists. exists qf. split; [exact Hrun|]. split; [|exact Hstitched].
  cbv in Hrun. injection Hrun as <-. reflexivity.
Defined.

(** * Further properties of the package *)

(** ** Leaves: paths, constants, operators, the guard *)

Lemma toPath_by_chain `{Externals} (e : Expr) :
  filterstore.toPath e
  = match chainNames e with
    | Some names => Ok (String.concat "." (map ToCamel names))
    | None =>
        Error (mkStatus codes.InvalidArgument
                 ("unable to get path for expression: "
                  +:+ fmtExpr (chainRoot e)))
    end.
Proof.
  induction e as [| | id name | id operand IH field | |]; try reflexivity.
  destruct (chainNames (Expr_SelectExpr id operand field)) as [names|] eqn:Hn.
  - now destruct (toPath_chain_path _ _ Hn) as [-> _].
  - cbn [chainNames] in Hn. cbn [filterstore.toPath chainRoot].
    destruct (chainNames operand); [discriminate|]. now rewrite IH.
Qed.

(** X1. [toPath] succeeds exactly on a chain of selections that ends
    in an identifier, with the dot-joined cased names; on any other
    expression it fails with InvalidArgument and prints the node at
    the bottom of the chain (possibly nil), and it never panics. *)
Theorem toPath_ok_iff_chain `{Externals} (e : Expr) :
  (forall path : string,
      filterstore.toPath e = Ok path <->
      exists names : list string,
        chainNames e = Some names
        /\ path = String.concat "." (map ToCamel names))
  /\ (chainNames e = None <->
      filterstore.toPath e
      = Error (mkStatus codes.InvalidArgument
                 ("unable to get path for expression: "
                  +:+ fmtExpr (chainRoot e))))
  /\ filterstore.toPath e <> Panic.
Proof.
  rewrite toPath_by_chain. destruct (chainNames e) as [names|].
  - split; [|split; [split|]]; try discriminate.
    intros path. split.
    + intros [= <-]. now exists names.
    + intros (names' & [= <-] & ->). reflexivity.
  - split; [|split; [split|]]; try discriminate; try reflexivity.
    intros path. split; [discriminate|]. intros (names & Hn & _).
    discriminate.
Qed.

(** X2. On a constant that is not nil [unwrapConst] always returns a
    value: the payload under its own kind for the six listed kinds,
    from which the constant can be read back, and the null value
    exactly for a constant of another kind. *)
Theorem unwrapConst_listed_kinds (c c' : Constant) :
  (exists v : value, filterstore.unwrapConst (Some c) = Ok v)
  /\ (filterstore.unwrapConst (Some c) = Ok v_nil <-> c = Constant_OtherKind)
  /\ (c <> Constant_OtherKind ->
      filterstore.unwrapConst (Some c) = filterstore.unwrapConst (Some c') ->
      c = c').
Proof.
  split; [apply unwrapConst_some|]. split.
  - destruct c; cbn; split; intros Heq; try discriminate; reflexivity.
  - intros Hlisted. destruct c, c'; cbn; intros [=]; subst;
      try reflexivity; contradiction.
Qed.

Lemma unwrapConst_listed_kinds_witness :
  Constant_Int64Value 30 = Constant_Int64Value 30.
Proof.
  refine (proj2 (proj2 (unwrapConst_listed_kinds (Constant_Int64Value 30)
                          (Constant_Int64Value 30))) _ eq_refl).
  discriminate.
Defined.

Lemma setInequality_cases (path : string) (q : query) :
  (query_inequality q = ""
   /\ filterstore.setInequality path q = (Ok tt, set_inequality path q))
  \/ (query_inequality q <> "" /\ query_inequality q = path
      /\ filterstore.setInequality path q = (Ok tt, q))
  \/ (query_inequality q <> "" /\ query_inequality q <> path
      /\ filterstore.setInequality path q = (Error errSingleField, q)).
Proof.
  destruct (String.eqb_spec (query_inequality q) "") as [Hunset|Hset].
  - left. split; [assumption|]. now apply setInequality_unset.
  - right. destruct (String.eqb_spec (query_inequality q) path) as [Heq|Hne].
    + left. split; [assumption|]. split; [assumption|].
      apply setInequality_same; congruence.
    + right. split; [assumption|]. split; [assumption|].
      now apply setInequality_other.
Qed.

(** X3. [setInequality] either succeeds or fails with the single-field
    status; it succeeds exactly when the inequality field holds [path]
    afterwards; a failed call changes nothing, and no call changes
    anything but the inequality field. *)
Theorem setInequality_postcondition (path : string) (q : query) :
  let r := fst (filterstore.setInequality path q) in
  let q' := snd (filterstore.setInequality path q) in
  (r = Ok tt \/ r = Error errSingleField)
  /\ (r = Ok tt <-> query_inequality q' = path)
  /\ (r <> Ok tt -> q' = q)
  /\ query_q q' = query_q q
  /\ query_types q' = query_types q
  /\ query_startAfter q' = query_startAfter q.
Proof.
  destruct (setInequality_cases path q)
    as [[Hu ->] | [(Hs & He & ->) | (Hs & Hn & ->)]]; cbn.
  - repeat split; auto; intros Hno; now contradiction Hno.
  - repeat split; auto; intros Hno; now contradiction Hno.
  - split; [now right|]. split; [|repeat split].
    split; [discriminate | intros Heq; contradiction].
Qed.

Lemma setInequality_postcondition_witness :
  snd (filterstore.setInequality "Height"
         (set_inequality "Age"
            (filterstore.newQuery "users/u1" "people" 10
               (mkCheckedExpr ∅ Expr_nil))))
  = set_inequality "Age"
      (filterstore.newQuery "users/u1" "people" 10
         (mkCheckedExpr ∅ Expr_nil)).
Proof.
  pose proof (setInequality_postcondition "Height"
                (set_inequality "Age"
                   (filterstore.newQuery "users/u1" "people" 10
                      (mkCheckedExpr ∅ Expr_nil)))) as Hpost.
  cbn zeta in Hpost. destruct Hpost as (_ & _ & Hkeep & _).
  apply Hkeep. discriminate.
Defined.

(** X4. Calling [setInequality] twice with the same path is the same
    as calling it once, for every path and every state. *)
Theorem setInequality_idempotent (path : string) (q : query) :
  bind (filterstore.setInequality path)
       (fun _ => filterstore.setInequality path) q
  = filterstore.setInequality path q.
Proof.
  unfold bind.
  destruct (setInequality_cases path q)
    as [[Hu ->] | [(Hs & He & Hrun) | (Hs & Hn & ->)]].
  - destruct (String.eqb_spec path "") as [->|Hpath].
    + rewrite (setInequality_unset "" (set_inequality "" q) eq_refl).
      reflexivity.
    + now rewrite (setInequality_same path (set_inequality path q) eq_refl).
  - now rewrite Hrun, Hrun.
  - reflexivity.
Qed.

(** X5. For a fixed negation flag no two function names share an
    operator: from the operator of a comparison its function can be
    told. *)
Theorem operator_injective (f g op : string) (not : bool) :
  filterstore.operator f not = Ok op ->
  filterstore.operator g not = Ok op ->
  f = g.
Proof.
  unfold filterstore.operator.
  repeat match goal with
         | |- context [if String.eqb ?a ?b then _ else _] =>
             destruct (String.eqb_spec a b)
         end;
    subst; destruct not; intros [= <-] [=]; reflexivity.
Qed.

Lemma operator_injective_witness : "<=" = "<=".
Proof. exact (operator_injective "<=" "<=" ">" true eq_refl eq_refl). Defined.

(** ** The walk: rejected shapes *)

Lemma relational_not_other (function : string) :
  filterstore.relational function = true ->
  String.eqb function filtering.FunctionNot = false
  /\ String.eqb function filtering.FunctionHas = false
  /\ String.eqb function filtering.FunctionAnd = false.
Proof.
  intros Hrel.
  destruct (relational_cases function Hrel)
    as [-> | [-> | [-> | [-> | [-> | ->]]]]]; repeat split.
Qed.

(** X6. A call with the wrong number of arguments is turned down
    before anything else is looked at, and the query state is left as
    it was: [NOT] needs one argument, [has], the six comparisons and
    [AND] need two; the status is InvalidArgument with a message per
    function. *)
Theorem wrong_arity_rejected `{Externals} (id : Z) (function : string)
    (args : list Expr) (not : bool) (q : query) :
  let run := filterstore.transpile (Expr_CallExpr id function args) not q in
  (function = filtering.FunctionNot -> length args <> 1%nat ->
   run = (invalidArgument "NOT requires one argument", q))
  /\ (function = filtering.FunctionHas -> length args <> 2%nat ->
      run = (invalidArgument ": requires two arguments", q))
  /\ (filterstore.relational function = true -> length args <> 2%nat ->
      run = (invalidArgument (function +:+ " requires two arguments"), q))
  /\ (function = filtering.FunctionAnd -> length args <> 2%nat ->
      run = (invalidArgument "AND requires two arguments", q)).
Proof.
  intros run. subst run. split; [|split; [|split]].
  - intros -> Hlen. destruct args as [|a0 [|a1 args]]; try reflexivity.
    now contradiction Hlen.
  - intros -> Hlen. rewrite transpile_has.
    destruct args as [|a0 [|a1 [|a2 args]]]; try reflexivity.
    now contradiction Hlen.
  - intros Hrel Hlen. rewrite (transpile_relational _ _ _ _ Hrel).
    destruct args as [|a0 [|a1 [|a2 args]]]; try reflexivity.
    now contradiction Hlen.
  - intros -> Hlen. destruct args as [|a0 [|a1 [|a2 args]]]; try reflexivity.
    now contradiction Hlen.
Qed.

Lemma wrong_arity_rejected_witness :
  let q := filterstore.newQuery "users/u1" "people" 10
             (mkCheckedExpr ∅ Expr_nil) in
  @filterstore.transpile strcaseExternals
    (Expr_CallExpr 1 "<=" [Expr_IdentExpr 2 "age"]) false q
  = (invalidArgument "<= requires two arguments", q).
Proof.
  intros q.
  pose proof (@wrong_arity_rejected strcaseExternals 1 "<="
                [Expr_IdentExpr 2 "age"] false q) as Harity.
  cbn zeta in Harity. destruct Harity as (_ & _ & Hrel & _).
  apply Hrel; [reflexivity | discriminate].
Defined.

(** X7. What the walk does not translate: a call of any function other
    than [NOT], [has], [AND] and the six comparisons ([OR] among them)
    fails with InvalidArgument "unknown filter function" and the name;
    a node that is not a call (a constant, an identifier, a selection
    or any other kind) fails with "invalid filter expression"; a nil
    expression succeeds.  None of these touches the query state. *)
Theorem unsupported_nodes_rejected `{Externals} (id : Z) (function : string)
    (args : list Expr) (e : Expr) (not : bool) (q : query) :
  (function <> filtering.FunctionNot ->
   function <> filtering.FunctionHas ->
   function <> filtering.FunctionAnd ->
   filterstore.relational function = false ->
   filterstore.transpile (Expr_CallExpr id function args) not q
   = (invalidArgument ("unknown filter function " +:+ function), q))
  /\ filterstore.transpile (Expr_CallExpr id filtering.FunctionOr args) not q
     = (invalidArgument "unknown filter function OR", q)
  /\ (e <> Expr_nil ->
      (forall id' function' args', e <> Expr_CallExpr id' function' args') ->
      filterstore.transpile e not q
      = (invalidArgument "invalid filter expression", q))
  /\ filterstore.transpile Expr_nil not q = (Ok tt, q).
Proof.
  split; [|split; [|split]]; try reflexivity.
  - intros Hnot Hhas Hand Hrel. cbn [filterstore.transpile].
    unfold filterstore.transpileCallWith.
    now rewrite (eqb_false_of_neq _ _ Hnot), (eqb_false_of_neq _ _ Hhas),
      Hrel, (eqb_false_of_neq _ _ Hand).
  - intros Hnil Hcall. destruct e; try reflexivity.
    + now contradiction Hnil.
    + now contradiction (Hcall Id Function Args).
Qed.

Lemma unsupported_nodes_rejected_witness :
  let q := filterstore.newQuery "users/u1" "people" 10
             (mkCheckedExpr ∅ Expr_nil) in
  @filterstore.transpile strcaseExternals
    (Expr_CallExpr 1 "timestamp" []) false q
  = (invalidArgument "unknown filter function timestamp", q)
  /\ @filterstore.transpile strcaseExternals
       (Expr_ConstExpr 2 (Constant_StringValue "bob")) false q
     = (invalidArgument "invalid filter expression", q).
Proof.
  intros q.
  destruct (@unsupported_nodes_rejected strcaseExternals 1 "timestamp" []
              (Expr_ConstExpr 2 (Constant_StringValue "bob")) false q)
    as (Hunknown & _ & Hnode & _).
  split.
  - apply Hunknown; [discriminate | discriminate | discriminate | reflexivity].
  - apply Hnode; intros; discriminate.
Defined.

(** ** The walk: how negation travels *)

(** X8. Negation is carried down to the leaves.  Two nested [NOT]
    cancel; [NOT] of a conjunction is walked as the conjunction of the
    negated parts, left to right (no disjunction is made of it); and
    [NOT] of a comparison with two arguments is walked exactly as the
    comparison with the contrary function ([=] for [!=], [>=] for [<],
    [>] for [<=], and back). *)
Theorem negation_pushed_down `{Externals} (i j k : Z) (function : string)
    (e a0 a1 : Expr) (not : bool) (q : query) :
  filterstore.transpile
    (Expr_CallExpr i filtering.FunctionNot
       [Expr_CallExpr j filtering.FunctionNot [e]]) not q
  = filterstore.transpile e not q
  /\ filterstore.transpile
       (Expr_CallExpr i filtering.FunctionNot
          [Expr_CallExpr j filtering.FunctionAnd [a0; a1]]) not q
     = filterstore.transpile
         (Expr_CallExpr j filtering.FunctionAnd
            [Expr_CallExpr i filtering.FunctionNot [a0];
             Expr_CallExpr k filtering.FunctionNot [a1]]) not q
  /\ (filterstore.relational function = true ->
      filterstore.transpile
        (Expr_CallExpr i filtering.FunctionNot
           [Expr_CallExpr j function [a0; a1]]) not q
      = filterstore.transpile
          (Expr_CallExpr j (complementFunction function) [a0; a1]) not q).
Proof.
  split; [|split].
  - now rewrite !transpile_not, negb_involutive.
  - reflexivity.
  - intros Hrel.
    destruct (relational_cases function Hrel)
      as [-> | [-> | [-> | [-> | [-> | ->]]]]];
      destruct not; reflexivity.
Qed.

Lemma negation_pushed_down_witness :
  let q := filterstore.newQuery "users/u1" "people" 10
             (mkCheckedExpr ∅ Expr_nil) in
  let age := Expr_IdentExpr 2 "age" in
  let thirty := Expr_ConstExpr 3 (Constant_Int64Value 30) in
  @filterstore.transpile strcaseExternals
    (Expr_CallExpr 1 "NOT" [Expr_CallExpr 4 "<" [age; thirty]]) false q
  = @filterstore.transpile strcaseExternals
      (Expr_CallExpr 4 ">=" [age; thirty]) false q.
Proof.
  intros q age thirty.
  exact (proj2 (proj2 (@negation_pushed_down strcaseExternals 1 4 0 "<"
                         Expr_nil age thirty false q)) eq_refl).
Defined.

(** ** The walk: what every step does to the query state *)

Lemma setInequality_ok (path : string) (q : query) :
  fst (filterstore.setInequality path q) = Ok tt ->
  snd (filterstore.setInequality path q) = set_inequality path q
  /\ (query_inequality q = "" \/ query_inequality q = path).
Proof.
  destruct (setInequality_cases path q)
    as [[Hu ->] | [(Hs & He & ->) | (Hs & Hn & ->)]]; cbn;
    try discriminate; intros _.
  - split; [reflexivity | now left].
  - split; [|now right]. destruct q; cbn in *. now subst.
Qed.

Lemma setInequality_failed (path : string) (q : query) :
  fst (filterstore.setInequality path q) <> Ok tt ->
  snd (filterstore.setInequality path q) = q
  /\ fst (filterstore.setInequality path q) = Error errSingleField.
Proof.
  destruct (setInequality_cases path q)
    as [[Hu ->] | [(Hs & He & ->) | (Hs & Hn & ->)]]; cbn;
    intros Hno; try (now contradiction Hno). split; reflexivity.
Qed.

(** The state a comparison leaves: the one it found, or that state
    with one [==] predicate, or the state after a successful claim of
    the path, with or without one predicate on that path. *)
Lemma transpileEquality_state `{Externals} (function : string)
    (args : list Expr) (not : bool) (q : query) :
  let q' := snd (filterstore.transpileEquality function args not q) in
  q' = q
  \/ (exists (path : string) (v : value),
         q' = on_q (firestore.Where path "==" v) q)
  \/ (exists (path op : string) (v : value),
         op <> "=="
         /\ (query_inequality q = "" \/ query_inequality q = path)
         /\ (q' = set_inequality path q
             \/ q' = on_q (firestore.Where path op v)
                       (set_inequality path q))).
Proof.
  unfold filterstore.transpileEquality.
  destruct args as [|a0 [|a1 [|a2 args]]]; try (left; reflexivity).
  unfold bind, lift, ret, modify.
  destruct (filterstore.operator function not) as [op| |];
    try (left; reflexivity).
  destruct (filterstore.toPath a0) as [path| |]; try (left; reflexivity).
  destruct (String.eqb_spec op "==") as [->|Hne]; cbn [negb].
  - destruct (filterstore.unwrapConst (GetConstExpr a1)) as [v| |];
      try (left; reflexivity).
    right. left. now exists path, v.
  - destruct (filterstore.setInequality path q) as [r q1] eqn:Hrun.
    destruct r as [[]| |].
    + destruct (setInequality_ok path q) as [Hq1 Hheld];
        [now rewrite Hrun|]. rewrite Hrun in Hq1. cbn [snd] in Hq1. subst q1.
      right. right.
      destruct (filterstore.unwrapConst (GetConstExpr a1)) as [v| |].
      * exists path, op, v. split; [assumption|]. split; [assumption|].
        now right.
      * exists path, op, v_nil. split; [assumption|]. split; [assumption|].
        now left.
      * exists path, op, v_nil. split; [assumption|]. split; [assumption|].
        now left.
    + destruct (setInequality_failed path q) as [Hq1 _];
        [rewrite Hrun; discriminate|].
      rewrite Hrun in Hq1. left. exact Hq1.
    + destruct (setInequality_failed path q) as [Hq1 _];
        [rewrite Hrun; discriminate|].
      rewrite Hrun in Hq1. left. exact Hq1.
Qed.

(** The state a [has] leaves: the one it found, or that state with one
    [== null] predicate, or the state after a successful claim of the
    path with one null cursor and one ascending ordering on it. *)
Lemma transpileHas_state `{Externals} (args : list Expr) (not : bool)
    (q : query) :
  let q' := snd (filterstore.transpileHas args not q) in
  q' = q
  \/ (exists path : string,
         q' = on_q (firestore.Where path "==" v_nil) q)
  \/ (exists path : string,
         (query_inequality q = "" \/ query_inequality q = path)
         /\ q' = on_q (firestore.OrderBy path firestore.Asc)
                   (append_startAfter v_nil (set_inequality path q))).
Proof.
  unfold filterstore.transpileHas.
  destruct args as [|a0 [|a1 [|a2 args]]]; try (left; reflexivity).
  destruct (ExprId a0) as [id|]; [|left; reflexivity].
  destruct (query_types q !! id) as [[m| | |]|]; try (left; reflexivity).
  unfold bind, lift, modify.
  destruct (filterstore.toPath a0) as [path| |]; try (left; reflexivity).
  set (full := filterstore.hasPath path (GetStringValue (GetConstExpr a1))).
  destruct not.
  - right. left. now exists full.
  - destruct (filterstore.setInequality full q) as [r q1] eqn:Hrun.
    destruct r as [[]| |].
    + destruct (setInequality_ok full q) as [Hq1 Hheld];
        [now rewrite Hrun|]. rewrite Hrun in Hq1. cbn [snd] in Hq1. subst q1.
      right. right. exists full. split; [assumption | reflexivity].
    + destruct (setInequality_failed full q) as [Hq1 _];
        [rewrite Hrun; discriminate|].
      rewrite Hrun in Hq1. left. exact Hq1.
    + destruct (setInequality_failed full q) as [Hq1 _];
        [rewrite Hrun; discriminate|].
      rewrite Hrun in Hq1. left. exact Hq1.
Qed.

(** A relation between the state before and the state after that is
    reflexive, transitive and kept by the two leaf procedures is kept
    by the whole walk, whatever its outcome. *)
Lemma transpile_preserves `{Externals} (R : query -> query -> Prop) :
  (forall q, R q q) ->
  (forall q1 q2 q3, R q1 q2 -> R q2 q3 -> R q1 q3) ->
  (forall args not q, R q (snd (filterstore.transpileHas args not q))) ->
  (forall function args not q,
      R q (snd (filterstore.transpileEquality function args not q))) ->
  forall (e : Expr) (not : bool) (q : query),
    R q (snd (filterstore.transpile e not q)).
Proof.
  intros Hrefl Htrans Hhas Hcmp e.
  induction e as [|id c|id name|id operand field _|id function args IH|id]
    using Expr_args_ind; intros not q; try apply Hrefl.
  cbn [filterstore.transpile]. unfold filterstore.transpileCallWith.
  destruct (String.eqb function filtering.FunctionNot).
  { destruct args as [|a0 [|a1 args]]; try apply Hrefl.
    inversion IH as [|? ? Ha0 _]; subst. apply Ha0. }
  destruct (String.eqb function filtering.FunctionHas); [apply Hhas|].
  destruct (filterstore.relational function); [apply Hcmp|].
  destruct (String.eqb function filtering.FunctionAnd); [|apply Hrefl].
  destruct args as [|a0 [|a1 [|a2 args]]]; try apply Hrefl.
  inversion IH as [|? ? Ha0 IH']; subst.
  inversion IH' as [|? ? Ha1 _]; subst.
  unfold bind. specialize (Ha0 not q).
  destruct (filterstore.transpile a0 not q) as [[[]| |] q1]; cbn [snd] in *;
    try exact Ha0.
  apply (Htrans q q1); [exact Ha0 | apply Ha1].
Qed.

Lemma grownFrom_refl (q : query) : grownFrom q q.
Proof.
  unfold grownFrom. repeat split; exists []; now rewrite app_nil_r.
Qed.

Lemma grownFrom_trans (q1 q2 q3 : query) :
  grownFrom q1 q2 -> grownFrom q2 q3 -> grownFrom q1 q3.
Proof.
  intros (Hc & Hl & Hs & Ht & [f Hf] & [o Ho])
         (Hc' & Hl' & Hs' & Ht' & [f' Hf'] & [o' Ho']).
  unfold grownFrom. rewrite Hc', Hc, Hl', Hl, Hs', Hs, Ht', Ht, Hf', Hf, Ho', Ho.
  repeat split; [exists (f ++ f') | exists (o ++ o')]; now rewrite app_assoc.
Qed.

Lemma grownFrom_where (path op : string) (v : value) (q : query) :
  grownFrom q (on_q (firestore.Where path op v) q).
Proof.
  unfold grownFrom. cbn. repeat split;
    [now exists [(path, op, v)] | exists []; now rewrite app_nil_r].
Qed.

Lemma grownFrom_set_inequality (path : string) (q : query) :
  grownFrom q (set_inequality path q).
Proof.
  unfold grownFrom. cbn. repeat split; exists []; now rewrite app_nil_r.
Qed.

Lemma transpile_grownFrom `{Externals} (e : Expr) (not : bool) (q : query) :
  grownFrom q (snd (filterstore.transpile e not q)).
Proof.
  apply transpile_preserves.
  - apply grownFrom_refl.
  - apply grownFrom_trans.
  - intros args n s.
    destruct (transpileHas_state args n s)
      as [-> | [[path ->] | (path & _ & ->)]].
    + apply grownFrom_refl.
    + apply grownFrom_where.
    + unfold grownFrom. cbn. repeat split;
        [exists []; now rewrite app_nil_r | now exists [(path, firestore.Asc)]].
  - intros function args n s.
    destruct (transpileEquality_state function args n s)
      as [-> | [(path & v & ->) | (path & op & v & _ & _ & [-> | ->])]].
    + apply grownFrom_refl.
    + apply grownFrom_where.
    + apply grownFrom_set_inequality.
    + apply (grownFrom_trans _ (set_inequality path s));
        [apply grownFrom_set_inequality | apply grownFrom_where].
Qed.

(** X9. Whatever its outcome, the walk only adds to the query: the
    predicates and the orderings it finds stay first and in order, and
    the collection, the limit, the start-after argument and the type
    map are never touched. *)
Theorem transpile_only_adds `{Externals} (e : Expr) (not : bool) (q : query) :
  let q' := snd (filterstore.transpile e not q) in
  (exists added,
      firestore.filters (query_q q') = firestore.filters (query_q q) ++ added)
  /\ (exists added,
         firestore.orders (query_q q') = firestore.orders (query_q q) ++ added)
  /\ firestore.collection (query_q q') = firestore.collection (query_q q)
  /\ firestore.limit (query_q q') = firestore.limit (query_q q)
  /\ firestore.startVals (query_q q') = firestore.startVals (query_q q)
  /\ query_types q' = query_types q.
Proof.
  destruct (transpile_grownFrom e not q) as (Hc & Hl & Hs & Ht & Hf & Ho).
  cbn zeta. tauto.
Qed.

(** X10. Once the inequality field holds a path, no part of the walk
    changes it again: one query has at most one inequality field. *)
Theorem inequality_field_kept `{Externals} (e : Expr) (not : bool)
    (q : query) :
  query_inequality q <> "" ->
  query_inequality (snd (filterstore.transpile e not q)) = query_inequality q.
Proof.
  revert e not q.
  apply (transpile_preserves
           (fun q q' => query_inequality q <> "" ->
                        query_inequality q' = query_inequality q)).
  - reflexivity.
  - intros q1 q2 q3 H12 H23 Hset. rewrite H23; [now apply H12|].
    now rewrite H12.
  - intros args n s Hset.
    destruct (transpileHas_state args n s)
      as [-> | [[path ->] | (path & [Hu | Hp] & ->)]];
      try reflexivity; [contradiction | now cbn].
  - intros function args n s Hset.
    destruct (transpileEquality_state function args n s)
      as [-> | [(path & v & ->)
               | (path & op & v & _ & [Hu | Hp] & [-> | ->])]];
      try reflexivity; try contradiction; now cbn.
Qed.

Lemma inequality_field_kept_witness :
  let q := set_inequality "Age"
             (filterstore.newQuery "users/u1" "people" 10
                (mkCheckedExpr ∅ Expr_nil)) in
  query_inequality
    (snd (@filterstore.transpile strcaseExternals
            (Expr_CallExpr 1 "<"
               [Expr_IdentExpr 2 "height";
                Expr_ConstExpr 3 (Constant_Int64Value 180)]) false q))
  = "Age".
Proof.
  intros q.
  refine (@inequality_field_kept strcaseExternals _ false q _).
  discriminate.
Defined.

Lemma onInequalityField_where_eq (path : string) (v : value) (q : query) :
  onInequalityField q ->
  onInequalityField (on_q (firestore.Where path "==" v) q).
Proof.
  intros [Hf Ho]. split; cbn; [|exact Ho].
  intros p op w Hin Hne. apply in_app_iff in Hin as [Hin | [[= <- <- <-] | []]].
  - now apply (Hf p op w).
  - now contradiction Hne.
Qed.

Lemma onInequalityField_claimed (path : string) (q : query) :
  query_inequality q = "" \/ query_inequality q = path ->
  onInequalityField q -> onInequalityField (set_inequality path q).
Proof.
  intros Hheld [Hf Ho]. split; cbn.
  - intros p op w Hin Hne. destruct (Hf p op w Hin Hne) as [-> | ->];
      [now left|]. destruct Hheld as [-> | ->]; [now left | now right].
  - intros p d Hin. destruct (Ho p d Hin) as [-> | ->];
      [now left|]. destruct Hheld as [-> | ->]; [now left | now right].
Qed.

(** X11. The store's rule is kept by the walk: if every predicate with
    an operator other than [==] and every ordering of the query is on
    the path in the inequality field (or on the empty path), the same
    holds after the walk, whatever its outcome; it holds in
    particular for every walk that starts from a query without
    predicates and orderings. *)
Theorem predicates_on_inequality_field `{Externals} (e : Expr) (not : bool)
    (q : query) :
  onInequalityField q ->
  onInequalityField (snd (filterstore.transpile e not q)).
Proof.
  revert e not q.
  apply (transpile_preserves
           (fun q q' => onInequalityField q -> onInequalityField q')).
  - auto.
  - auto.
  - intros args n s Hinv.
    destruct (transpileHas_state args n s)
      as [-> | [[path ->] | (path & Hheld & ->)]].
    + exact Hinv.
    + now apply onInequalityField_where_eq.
    + destruct (onInequalityField_claimed path s Hheld Hinv) as [Hf Ho].
      split; cbn; [exact Hf|].
      intros p d Hin. apply in_app_iff in Hin as [Hin | [[= -> _] | []]].
      * now apply (Ho p d).
      * now right.
  - intros function args n s Hinv.
    destruct (transpileEquality_state function args n s)
      as [-> | [(path & v & ->)
               | (path & op & v & Hne & Hheld & [-> | ->])]].
    + exact Hinv.
    + now apply onInequalityField_where_eq.
    + now apply onInequalityField_claimed.
    + destruct (onInequalityField_claimed path s Hheld Hinv) as [Hf Ho].
      split; cbn; [|exact Ho].
      intros p o w Hin Hno.
      apply in_app_iff in Hin as [Hin | [[= -> _ _] | []]].
      * now apply (Hf p o w).
      * now right.
Qed.

Lemma predicates_on_inequality_field_witness :
  let q := filterstore.newQuery "users/u1" "people" 10
             (mkCheckedExpr ∅ Expr_nil) in
  onInequalityField
    (snd (@filterstore.transpile strcaseExternals
            (Expr_CallExpr 1 "AND"
               [Expr_CallExpr 2 ">"
                  [Expr_IdentExpr 3 "age";
                   Expr_ConstExpr 4 (Constant_Int64Value 30)];
                Expr_CallExpr 5 "<"
                  [Expr_IdentExpr 6 "age";
                   Expr_ConstExpr 7 (Constant_Int64Value 65)]]) false q)).
Proof.
  intros q.
  refine (@predicates_on_inequality_field strcaseExternals _ false q _).
  split; intros ? ? ; cbn; intros; contradiction.
Defined.

(** ** The leaf procedures: when they succeed and when they refuse *)

(** X13. [has] is only translated for a message-typed first argument:
    when the type map gives that argument a list type, a map type, any
    other type or no type at all, the call fails with InvalidArgument
    ": must be used on a message, map or list", negated or not, and the
    query state stays as it was. *)
Theorem has_needs_message `{Externals} (a0 a1 : Expr) (id : Z) (not : bool)
    (q : query) :
  ExprId a0 = Some id ->
  (forall m : string, query_types q !! id <> Some (Type_MessageType m)) ->
  filterstore.transpileHas [a0; a1] not q
  = (invalidArgument ": must be used on a message, map or list", q).
Proof.
  intros Hid Htype. unfold filterstore.transpileHas. rewrite Hid.
  destruct (query_types q !! id) as [[m| | |]|]; try reflexivity.
  now contradiction (Htype m).
Qed.

Lemma has_needs_message_witness :
  let q := filterstore.newQuery "users/u1" "people" 10
             (mkCheckedExpr {[ 2 := Type_ListType ]} Expr_nil) in
  @filterstore.transpileHas strcaseExternals
    [Expr_IdentExpr 2 "tags"; Expr_ConstExpr 3 (Constant_StringValue "new")]
    false q
  = (invalidArgument ": must be used on a message, map or list", q).
Proof.
  intros q.
  apply (@has_needs_message strcaseExternals _ _ 2); [reflexivity|].
  intros m. discriminate.
Defined.

(** X14. A comparison succeeds only in one way: it has exactly two
    arguments, its function is one of the table, its first argument
    resolves to a path, its second argument is a constant, and the
    guard lets the path through unless the operator is [==]; the state
    it leaves is the state it found with the path claimed (unless
    [==]) and exactly one predicate [path op value] added. *)
Theorem comparison_success `{Externals} (function : string)
    (args : list Expr) (not : bool) (q q' : query) :
  filterstore.transpileEquality function args not q = (Ok tt, q') ->
  exists (a0 a1 : Expr) (op path : string) (c : Constant) (v : value),
    args = [a0; a1]
    /\ filterstore.operator function not = Ok op
    /\ filterstore.toPath a0 = Ok path
    /\ GetConstExpr a1 = Some c
    /\ filterstore.unwrapConst (Some c) = Ok v
    /\ (op = "==" \/ query_inequality q = "" \/ query_inequality q = path)
    /\ q' = on_q (firestore.Where path op v)
              (if String.eqb op "==" then q else set_inequality path q).
Proof.
  unfold filterstore.transpileEquality.
  destruct args as [|a0 [|a1 [|a2 args]]]; try discriminate.
  unfold bind, lift, ret, modify.
  destruct (filterstore.operator function not) as [op| |] eqn:Hop;
    try discriminate.
  destruct (filterstore.toPath a0) as [path| |] eqn:Hpath; try discriminate.
  destruct (String.eqb_spec op "==") as [->|Hne]; cbn [negb].
  - destruct (GetConstExpr a1) as [c|] eqn:Hc; [|discriminate].
    destruct (unwrapConst_some c) as [v Hv]. rewrite Hv. intros [= <-].
    exists a0, a1, "==", path, c, v.
    repeat (split; [first [reflexivity | assumption | now left]|]).
    reflexivity.
  - destruct (filterstore.setInequality path q) as [r q1] eqn:Hrun.
    destruct r as [[]| |]; try discriminate.
    destruct (setInequality_ok path q) as [Hq1 Hheld]; [now rewrite Hrun|].
    rewrite Hrun in Hq1. cbn [snd] in Hq1. subst q1.
    destruct (GetConstExpr a1) as [c|] eqn:Hc; [|discriminate].
    destruct (unwrapConst_some c) as [v Hv]. rewrite Hv. intros [= <-].
    exists a0, a1, op, path, c, v.
    repeat (split; [first [reflexivity | assumption | now right]|]).
    now rewrite (eqb_false_of_neq _ _ Hne).
Qed.

Lemma comparison_success_witness :
  let q := filterstore.newQuery "users/u1" "people" 10
             (mkCheckedExpr ∅ Expr_nil) in
  let args := [Expr_IdentExpr 2 "age";
               Expr_ConstExpr 3 (Constant_Int64Value 30)] in
  exists (a0 a1 : Expr) (op path : string) (c : Constant) (v : value),
    args = [a0; a1]
    /\ filterstore.operator ">" false = Ok op
    /\ @filterstore.toPath strcaseExternals a0 = Ok path
    /\ GetConstExpr a1 = Some c
    /\ filterstore.unwrapConst (Some c) = Ok v
    /\ (op = "==" \/ query_inequality q = "" \/ query_inequality q = path)
    /\ on_q (firestore.Where "Age" ">" (v_int64 30)) (set_inequality "Age" q)
       = on_q (firestore.Where path op v)
           (if String.eqb op "==" then q else set_inequality path q).
Proof.
  intros q args.
  exact (@comparison_success strcaseExternals ">" args false q _ eq_refl).
Defined.

(** X15. [has] succeeds only in one way: two arguments, the first one
    not nil, typed as a message and resolving to a path.  Negated, it
    leaves the state it found with exactly one predicate [path ==
    null]; not negated, it needs the guard's consent and leaves the
    path in the inequality field, one null cursor and one ascending
    ordering on the path, and no predicate. *)
Theorem has_success `{Externals} (args : list Expr) (not : bool)
    (q q' : query) :
  filterstore.transpileHas args not q = (Ok tt, q') ->
  exists (a0 a1 : Expr) (id : Z) (m path : string),
    args = [a0; a1]
    /\ ExprId a0 = Some id
    /\ query_types q !! id = Some (Type_MessageType m)
    /\ filterstore.toPath a0 = Ok path
    /\ let full :=
         filterstore.hasPath path (GetStringValue (GetConstExpr a1)) in
       if not then q' = on_q (firestore.Where full "==" v_nil) q
       else (query_inequality q = "" \/ query_inequality q = full)
            /\ q' = on_q (firestore.OrderBy full firestore.Asc)
                      (append_startAfter v_nil (set_inequality full q)).
Proof.
  unfold filterstore.transpileHas.
  destruct args as [|a0 [|a1 [|a2 args]]]; try discriminate.
  destruct (ExprId a0) as [id|] eqn:Hid; [|discriminate].
  destruct (query_types q !! id) as [[m| | |]|] eqn:Htype; try discriminate.
  unfold bind, lift, modify.
  destruct (filterstore.toPath a0) as [path| |] eqn:Hpath; try discriminate.
  intros Hrun. exists a0, a1, id, m, path.
  do 4 (split; [first [reflexivity | assumption]|]). cbn zeta.
  set (full := filterstore.hasPath path (GetStringValue (GetConstExpr a1)))
    in *.
  destruct not.
  - now injection Hrun as <-.
  - destruct (filterstore.setInequality full q) as [r q1] eqn:Hguard.
    destruct r as [[]| |]; try discriminate.
    destruct (setInequality_ok full q) as [Hq1 Hheld]; [now rewrite Hguard|].
    rewrite Hguard in Hq1. cbn [snd] in Hq1. subst q1.
    split; [assumption|]. now injection Hrun as <-.
Qed.

Lemma has_success_witness :
  let q := filterstore.newQuery "users/u1" "people" 10
             (mkCheckedExpr {[ 2 := Type_MessageType "Profile" ]} Expr_nil) in
  let args := [Expr_SelectExpr 2 (Expr_IdentExpr 1 "person") "profile";
               Expr_ConstExpr 3 (Constant_StringValue "bio")] in
  exists (a0 a1 : Expr) (id : Z) (m path : string),
    args = [a0; a1]
    /\ ExprId a0 = Some id
    /\ query_types q !! id = Some (Type_MessageType m)
    /\ @filterstore.toPath strcaseExternals a0 = Ok path
    /\ let full :=
         @filterstore.hasPath strcaseExternals path
           (GetStringValue (GetConstExpr a1)) in
       (query_inequality q = "" \/ query_inequality q = full)
       /\ on_q (firestore.OrderBy "Profile.Bio" firestore.Asc)
            (append_startAfter v_nil (set_inequality "Profile.Bio" q))
          = on_q (firestore.OrderBy full firestore.Asc)
              (append_startAfter v_nil (set_inequality full q)).
Proof.
  intros q args.
  exact (@has_success strcaseExternals args false q _ eq_refl).
Defined.

(** ** The entry points *)

Lemma paginate_frame (pageToken : string) (q : query) :
  let q' := filterstore.paginate pageToken q in
  firestore.collection (query_q q') = firestore.collection (query_q q)
  /\ firestore.limit (query_q q') = firestore.limit (query_q q)
  /\ query_types q' = query_types q.
Proof.
  destruct q as [fq types held cursors]. unfold filterstore.paginate.
  destruct (String.eqb pageToken ""); destruct cursors; cbn; repeat split.
Qed.

Lemma part_000_transpileHas_agrees `{Externals} (args : list Expr)
    (not : bool) (q : query) :
  part_000.transpileHas args not q = filterstore.transpileHas args not q
  \/ (part_000.transpileHas args not q
      = (invalidArgument "has must be used on a message, map or list", q)
      /\ filterstore.transpileHas args not q
         = (invalidArgument ": must be used on a message, map or list", q)).
Proof.
  unfold part_000.transpileHas, filterstore.transpileHas.
  destruct args as [|a0 [|a1 [|a2 args]]]; try (left; reflexivity).
  destruct (ExprId a0) as [id|]; [|left; reflexivity].
  destruct (query_types q !! id) as [[m| | |]|];
    try (right; split; reflexivity).
  left. reflexivity.
Qed.

(** X16. The two revisions translate [has] alike: on every argument
    list, flag and state they leave the same state, and they return
    the same result except for the wording of the status for an
    operand that is not a message ("has must be used ..." in the
    earlier revision, ": must be used ..." now). *)
Theorem has_same_in_both_revisions `{Externals} (args : list Expr)
    (not : bool) (q : query) :
  snd (part_000.transpileHas args not q)
  = snd (filterstore.transpileHas args not q)
  /\ (fst (part_000.transpileHas args not q)
      = fst (filterstore.transpileHas args not q)
      \/ (fst (part_000.transpileHas args not q)
          = invalidArgument "has must be used on a message, map or list"
          /\ fst (filterstore.transpileHas args not q)
             = invalidArgument ": must be used on a message, map or list")).
Proof.
  destruct (part_000_transpileHas_agrees args not q) as [-> | [-> ->]].
  - split; [reflexivity | now left].
  - split; [reflexivity | right; split; reflexivity].
Qed.

Lemma part_000_transpile_preserves `{Externals}
    (R : query -> query -> Prop) :
  (forall q, R q q) ->
  (forall args not q, R q (snd (filterstore.transpileHas args not q))) ->
  forall (e : Expr) (not : bool) (q : query),
    R q (snd (part_000.transpile e not q)).
Proof.
  intros Hrefl Hhas e.
  induction e as [|id c|id name|id operand field _|id function args IH|id]
    using Expr_args_ind; intros not q; try apply Hrefl.
  cbn [part_000.transpile]. unfold part_000.transpileCallWith.
  destruct (String.eqb function filtering.FunctionNot).
  { destruct args as [|a0 [|a1 args]]; try apply Hrefl.
    inversion IH as [|? ? Ha0 _]; subst. apply Ha0. }
  destruct (String.eqb function filtering.FunctionHas).
  { destruct (part_000_transpileHas_agrees args not q) as [-> | [-> _]];
      [apply Hhas | apply Hrefl]. }
  destruct (filterstore.relational function); apply Hrefl.
Qed.

(** X17. In the earlier revision comparisons are accepted and
    ignored, whatever their arguments, and [AND] is an unknown
    function; so a walk of that revision adds nothing to the query but
    predicates of the form [path == null]. *)
Theorem part_000_comparisons_ignored `{Externals} (id : Z)
    (function : string) (args : list Expr) (e : Expr) (not : bool)
    (q : query) :
  (filterstore.relational function = true ->
   part_000.transpile (Expr_CallExpr id function args) not q = (Ok tt, q))
  /\ part_000.transpile (Expr_CallExpr id filtering.FunctionAnd args) not q
     = (invalidArgument "unknown filter function AND", q)
  /\ (exists added : list (string * string * value),
         firestore.filters (query_q (snd (part_000.transpile e not q)))
         = firestore.filters (query_q q) ++ added
         /\ Forall (fun f => snd (fst f) = "==" /\ snd f = v_nil) added).
Proof.
  split; [|split].
  - intros Hrel. destruct (relational_not_other function Hrel) as (Hn & Hh & _).
    cbn [part_000.transpile]. unfold part_000.transpileCallWith.
    now rewrite Hn, Hh, Hrel.
  - reflexivity.
  - revert e not q.
    apply (part_000_transpile_preserves
             (fun q q' =>
                exists added,
                  firestore.filters (query_q q')
                  = firestore.filters (query_q q) ++ added
                  /\ Forall (fun f => snd (fst f) = "==" /\ snd f = v_nil)
                       added)).
    + intros q. exists []. split; [now rewrite app_nil_r | constructor].
    + intros args' n s.
      destruct (transpileHas_state args' n s)
        as [-> | [[path ->] | (path & _ & ->)]].
      * exists []. split; [now rewrite app_nil_r | constructor].
      * exists [(path, "==", v_nil)]. split; [reflexivity|].
        constructor; [split; reflexivity | constructor].
      * exists []. split; [cbn; now rewrite app_nil_r | constructor].
Qed.

Lemma part_000_comparisons_ignored_witness :
  let q := filterstore.newQuery "users/u1" "people" 10
             (mkCheckedExpr ∅ Expr_nil) in
  @part_000.transpile strcaseExternals
    (Expr_CallExpr 1 "<" [Expr_IdentExpr 2 "age"]) false q
  = (Ok tt, q).
Proof.
  intros q.
  exact (proj1 (@part_000_comparisons_ignored strcaseExternals 1 "<"
                  [Expr_IdentExpr 2 "age"] Expr_nil false q) eq_refl).
Defined.

(** X18. The query [Transpile] hands to the store is on the collection
    [parent/collection].  In filterstore.go its limit is the page size
    as it was passed in, with no check (zero and negative sizes
    included), and its type map is the filter's; in the earlier
    revision no limit is set at all, whatever the page size of the
    request. *)
Theorem Transpile_collection_and_limit `{Externals}
    (ParseFilter : part_000.ListRequest -> result CheckedExpr) :
  (forall (parent collection pageToken : string) (pageSize : Z)
          (filter : CheckedExpr) (qf : query),
      filterstore.Transpile parent collection pageToken pageSize filter
      = Ok qf ->
      firestore.collection (query_q qf) = parent +:+ "/" +:+ collection
      /\ firestore.limit (query_q qf) = Some pageSize
      /\ query_types qf = TypeMap filter)
  /\ (forall (t : part_000.transpiler) (req : part_000.ListRequest)
             (qf : query),
         part_000.Transpile ParseFilter t req = Ok qf ->
         firestore.collection (query_q qf)
         = part_000.GetParent req +:+ "/" +:+ part_000.collection t
         /\ firestore.limit (query_q qf) = None).
Proof.
  split.
  - intros parent collection pageToken pageSize filter qf.
    unfold filterstore.Transpile.
    set (q := filterstore.newQuery parent collection pageSize filter).
    destruct (transpile_grownFrom (GetExpr filter) false q)
      as (Hc & Hl & _ & Ht & _).
    destruct (filterstore.transpile (GetExpr filter) false q)
      as [[[]| |] qw]; try discriminate.
    intros [= <-]. cbn [snd] in *.
    destruct (paginate_frame pageToken qw) as (Hc' & Hl' & Ht').
    cbn zeta in *. rewrite Hc', Hl', Ht', Hc, Hl, Ht. repeat split.
  - intros t req qf. unfold part_000.Transpile.
    destruct (part_000.pageSizeSwitch t req) as [n| |]; try discriminate.
    destruct (ParseFilter req) as [filter| |]; try discriminate.
    set (q := mkquery _ _ _ _).
    assert (Hgrown : grownFrom q
                       (snd (part_000.transpile (GetExpr filter) false q))).
    { apply (part_000_transpile_preserves grownFrom);
        [apply grownFrom_refl|].
      intros args n' s.
      destruct (transpileHas_state args n' s)
        as [-> | [[path ->] | (path & _ & ->)]].
      - apply grownFrom_refl.
      - apply grownFrom_where.
      - unfold grownFrom. cbn. repeat split;
          [exists []; now rewrite app_nil_r
          | now exists [(path, firestore.Asc)]]. }
    destruct Hgrown as (Hc & Hl & _).
    destruct (part_000.transpile (GetExpr filter) false q)
      as [[[]| |] qw]; try discriminate.
    intros [= <-]. cbn [snd] in *.
    destruct (paginate_frame (part_000.GetPageToken req) qw)
      as (Hc' & Hl' & _).
    cbn zeta in *. rewrite Hc', Hl', Hc, Hl. split; reflexivity.
Qed.

Lemma Transpile_collection_and_limit_witness :
  exists qf : query,
    @filterstore.Transpile strcaseExternals "users/u1" "people" "" (-5)
      (mkCheckedExpr ∅ Expr_nil) = Ok qf
    /\ firestore.limit (query_q qf) = Some (-5).
Proof.
  eexists. split; [reflexivity|].
  exact (proj1 (proj2
           (proj1 (@Transpile_collection_and_limit strcaseExternals
                     (fun _ => Ok (mkCheckedExpr ∅ Expr_nil)))
              "users/u1" "people" "" (-5) (mkCheckedExpr ∅ Expr_nil) _
              eq_refl))).
Defined.

(** X19. With a positive default that does not exceed the maximum,
    every page size the switch lets through is positive and at most
    the maximum; and the switch lets through every size that is not
    negative. *)
Theorem page_size_within_bounds (t : part_000.transpiler)
    (req : part_000.ListRequest) :
  0 < part_000.defaultPageSize t ->
  part_000.defaultPageSize t <= part_000.maxPageSize t ->
  (forall n : Z,
      part_000.pageSizeSwitch t req = Ok n ->
      0 < n <= part_000.maxPageSize t)
  /\ (0 <= part_000.GetPageSize req ->
      exists n : Z, part_000.pageSizeSwitch t req = Ok n).
Proof.
  intros Hdefault Hmax. unfold part_000.pageSizeSwitch. split.
  - intros n.
    destruct (Z.ltb_spec (part_000.GetPageSize req) 0);
      destruct (Z.eqb_spec (part_000.GetPageSize req) 0);
      destruct (Z.gtb_spec (part_000.GetPageSize req)
                  (part_000.maxPageSize t));
      intros Heq; try discriminate Heq; injection Heq as <-; lia.
  - intros Hsize.
    destruct (Z.ltb_spec (part_000.GetPageSize req) 0); [lia|].
    destruct (Z.eqb_spec (part_000.GetPageSize req) 0);
      [eexists; reflexivity|].
    destruct (Z.gtb_spec (part_000.GetPageSize req) (part_000.maxPageSize t));
      eexists; reflexivity.
Qed.

Lemma page_size_within_bounds_witness :
  0 < 100 <= 100.
Proof.
  refine (proj1 (page_size_within_bounds
                   (part_000.mktranspiler "people" 10 100)
                   (part_000.mkListRequest "users/u1" 5000 "" "") _ _)
            100 eq_refl).
  - reflexivity.
  - discriminate.
Defined.

(** ** Building the transpiler (earlier revision) *)

(** X20. [New] succeeds exactly when the output message has a field
    under the collection field number (the number of the message's
    collection option, 1 without it), that field is a list, and the
    declarations for it can be built; the transpiler then carries the
    field's name as collection, and as default and maximum page size
    the values of the method's pagination option, 10 and 100 where the
    option or one of its fields is missing.  Without such a field, or
    with one that is not a list, [New] fails with InvalidArgument
    "unable to determine collection field for" and the message's full
    name, before any declaration is built; with a list field whose
    declarations cannot be built, it returns the error of
    [filtering.NewDeclarations] as it is. *)
Theorem New_collection_field
    (NewDeclarations : part_000.FieldDescriptor -> result unit)
    (mtd : part_000.MethodDescriptor) :
  let num :=
    default 1 (part_000.E_Collection (part_000.Output mtd)
               ≫= part_000.CollectionFieldNumber) in
  (forall t : part_000.transpiler,
      part_000.New NewDeclarations mtd = Ok t <->
      exists field : part_000.FieldDescriptor,
        part_000.Fields (part_000.Output mtd) !! num = Some field
        /\ part_000.IsList field = true
        /\ NewDeclarations field = Ok tt
        /\ t = part_000.mktranspiler (part_000.FieldName field)
                 (default 10 (part_000.E_Pagination mtd
                              ≫= part_000.DefaultPageSize))
                 (default 100 (part_000.E_Pagination mtd
                               ≫= part_000.MaxPageSize)))
  /\ (part_000.Fields (part_000.Output mtd) !! num = None
      \/ (exists field : part_000.FieldDescriptor,
             part_000.Fields (part_000.Output mtd) !! num = Some field
             /\ part_000.IsList field = false) ->
      part_000.New NewDeclarations mtd
      = invalidArgument ("unable to determine collection field for "
                         +:+ part_000.FullName (part_000.Output mtd)))
  /\ (forall (field : part_000.FieldDescriptor) (st : Status),
         part_000.Fields (part_000.Output mtd) !! num = Some field ->
         part_000.IsList field = true ->
         NewDeclarations field = Error st ->
         part_000.New NewDeclarations mtd = Error st).
Proof.
  intros num. unfold part_000.New.
  assert (Hnum : match part_000.E_Collection (part_000.Output mtd) with
                 | Some options =>
                     match part_000.CollectionFieldNumber options with
                     | Some n => n
                     | None => 1
                     end
                 | None => 1
                 end = num).
  { subst num. destruct (part_000.E_Collection (part_000.Output mtd)) as [o|];
      [destruct o as [[n|]]|]; reflexivity. }
  assert (Hdef : match part_000.E_Pagination mtd with
                 | Some options =>
                     match part_000.DefaultPageSize options with
                     | Some n => n
                     | None => 10
                     end
                 | None => 10
                 end
                 = default 10 (part_000.E_Pagination mtd
                               ≫= part_000.DefaultPageSize)).
  { destruct (part_000.E_Pagination mtd) as [[[d|] m]|]; reflexivity. }
  assert (Hmax : match part_000.E_Pagination mtd with
                 | Some options =>
                     match part_000.MaxPageSize options with
                     | Some n => n
                     | None => 100
                     end
                 | None => 100
                 end
                 = default 100 (part_000.E_Pagination mtd
                                ≫= part_000.MaxPageSize)).
  { destruct (part_000.E_Pagination mtd) as [[d [m|]]|]; reflexivity. }
  cbn zeta. rewrite Hnum, Hdef, Hmax. clear Hnum Hdef Hmax.
  split; [|split].
  - intros t. split.
    + destruct (part_000.Fields (part_000.Output mtd) !! num) as [field|];
        [|discriminate].
      destruct (part_000.IsList field) eqn:Hlist; [|discriminate].
      destruct (NewDeclarations field) as [[]| |] eqn:Hdecl; try discriminate.
      intros [= <-]. exists field. repeat split; assumption.
    + intros (field & -> & -> & -> & ->). reflexivity.
  - intros [-> | (field & -> & ->)]; reflexivity.
  - intros field st -> -> ->. reflexivity.
Qed.

Lemma New_collection_field_witness :
  part_000.New (fun _ => Ok tt)
    (part_000.mkMethodDescriptor None
       (part_000.mkMessageDescriptor "library.ListBooksResponse" None
          {[ 1 := part_000.mkFieldDescriptor "next_page_token" false ]}))
  = invalidArgument
      "unable to determine collection field for library.ListBooksResponse".
Proof.
  pose proof (New_collection_field (fun _ => Ok tt)
                (part_000.mkMethodDescriptor None
                   (part_000.mkMessageDescriptor "library.ListBooksResponse"
                      None
                      {[ 1 := part_000.mkFieldDescriptor "next_page_token"
                                false ]}))) as Hnew.
  cbn zeta in Hnew. destruct Hnew as (_ & Hfail & _). apply Hfail.
  right. eexists. split; reflexivity.
Defined.

(** X21. For a transpiler built by [New] for a method without
    pagination option, the page-size switch at the head of [Transpile]
    computes, for every request whose page size is not negative, a
    value between 1 and 100: 10 for a request that asks for none, 100
    for one that asks for more, the requested size otherwise.  (This
    is the value of the local [pageSize]; the revision does not hand
    it on to the query.) *)
Theorem New_default_page_sizes
    (NewDeclarations : part_000.FieldDescriptor -> result unit)
    (mtd : part_000.MethodDescriptor) (t : part_000.transpiler)
    (req : part_000.ListRequest) :
  part_000.E_Pagination mtd = None ->
  part_000.New NewDeclarations mtd = Ok t ->
  0 <= part_000.GetPageSize req ->
  exists n : Z,
    part_000.pageSizeSwitch t req = Ok n
    /\ 1 <= n <= 100
    /\ n = (if part_000.GetPageSize req =? 0 then 10
            else Z.min (part_000.GetPageSize req) 100).
Proof.
  intros Hnone Hnew Hsize. unfold part_000.New in Hnew. rewrite Hnone in Hnew.
  destruct (part_000.Fields _ !! _) as [field|]; [|discriminate].
  destruct (part_000.IsList field); [|discriminate].
  destruct (NewDeclarations field); try discriminate.
  injection Hnew as <-. unfold part_000.pageSizeSwitch. cbn.
  destruct (Z.ltb_spec (part_000.GetPageSize req) 0); [lia|].
  destruct (Z.eqb_spec (part_000.GetPageSize req) 0).
  - exists 10. repeat split; lia.
  - destruct (Z.gtb_spec (part_000.GetPageSize req) 100).
    + exists 100. repeat split; lia.
    + exists (part_000.GetPageSize req). repeat split; lia.
Qed.

Lemma New_default_page_sizes_witness :
  exists n : Z,
    part_000.pageSizeSwitch (part_000.mktranspiler "books" 10 100)
      (part_000.mkListRequest "shelves/s1" 250 "" "") = Ok n
    /\ 1 <= n <= 100
    /\ n = 100.
Proof.
  refine (New_default_page_sizes (fun _ => Ok tt)
            (part_000.mkMethodDescriptor None
               (part_000.mkMessageDescriptor "library.ListBooksResponse" None
                  {[ 1 := part_000.mkFieldDescriptor "books" true ]}))
            (part_000.mktranspiler "books" 10 100)
            (part_000.mkListRequest "shelves/s1" 250 "" "")
            eq_refl eq_refl _).
  discriminate.
Defined.

(** ** The earlier revision: what becomes of the page size *)

Lemma part_000_transpile_grownFrom `{Externals} (e : Expr) (not : bool)
    (q : query) :
  grownFrom q (snd (part_000.transpile e not q)).
Proof.
  apply (part_000_transpile_preserves grownFrom); [apply grownFrom_refl|].
  intros args n s.
  destruct (transpileHas_state args n s)
    as [-> | [[path ->] | (path & _ & ->)]].
  - apply grownFrom_refl.
  - apply grownFrom_where.
  - unfold grownFrom. cbn. repeat split;
      [exists []; now rewrite app_nil_r | now exists [(path, firestore.Asc)]].
Qed.

Lemma pageSizeSwitch_accepts (t : part_000.transpiler)
    (req : part_000.ListRequest) :
  0 <= part_000.GetPageSize req ->
  exists n : Z, part_000.pageSizeSwitch t req = Ok n.
Proof.
  intros Hsize. unfold part_000.pageSizeSwitch.
  destruct (Z.ltb_spec (part_000.GetPageSize req) 0); [lia|].
  destruct (part_000.GetPageSize req =? 0); [eexists; reflexivity|].
  destruct (part_000.GetPageSize req >? part_000.maxPageSize t);
    eexists; reflexivity.
Qed.

(** C9 (defect of the code). Of the page-size handling the claim
    describes, the earlier revision's entry point shows only the first
    part: a negative size makes [Transpile] return InvalidArgument
    "page size cannot be negative" whatever the filter and the parser
    do.  The default and the maximum are computed into the local
    [pageSize] and go no further: every query [Transpile] builds has
    no limit, and for one parsed filter the result is the same for
    every page size that is not negative, so a size of zero is not
    replaced by the default and a size above the maximum is not
    clamped in any query handed to the store. *)
Theorem page_size_not_applied `{Externals}
    (ParseFilter : part_000.ListRequest -> result CheckedExpr)
    (t : part_000.transpiler) (req : part_000.ListRequest) :
  (part_000.GetPageSize req < 0 ->
   part_000.Transpile ParseFilter t req
   = Error (mkStatus codes.InvalidArgument "page size cannot be negative"))
  /\ (forall qf : query,
         part_000.Transpile ParseFilter t req = Ok qf ->
         firestore.limit (query_q qf) = None)
  /\ (forall size : Z,
         let req' :=
           part_000.mkListRequest (part_000.GetParent req) size
             (part_000.GetPageToken req) (part_000.GetFilter req) in
         0 <= part_000.GetPageSize req -> 0 <= size ->
         ParseFilter req' = ParseFilter req ->
         part_000.Transpile ParseFilter t req'
         = part_000.Transpile ParseFilter t req).
Proof.
  split; [|split].
  - intros Hneg. unfold part_000.Transpile, part_000.pageSizeSwitch.
    destruct (Z.ltb_spec (part_000.GetPageSize req) 0); [reflexivity | lia].
  - intros qf. unfold part_000.Transpile.
    destruct (part_000.pageSizeSwitch t req) as [n| |]; try discriminate.
    destruct (ParseFilter req) as [filter| |]; try discriminate.
    set (q := mkquery _ _ _ _).
    destruct (part_000_transpile_grownFrom (GetExpr filter) false q)
      as (_ & Hl & _).
    destruct (part_000.transpile (GetExpr filter) false q)
      as [[[]| |] qw]; try discriminate.
    intros [= <-]. cbn [snd] in Hl.
    destruct (paginate_frame (part_000.GetPageToken req) qw) as (_ & Hl' & _).
    cbn zeta in Hl'. now rewrite Hl', Hl.
  - intros size req' Hsize Hsize' Hparse. unfold part_000.Transpile.
    destruct (pageSizeSwitch_accepts t req Hsize) as [n ->].
    destruct (pageSizeSwitch_accepts t req') as [n' ->]; [exact Hsize'|].
    rewrite Hparse. reflexivity.
Qed.

(** The failing input: with default 10 and maximum 100, the requests
    for 0, for 1000 and for 25 documents all get the query on the
    collection with no limit at all. *)
Lemma page_size_not_applied_witness :
  let t := part_000.mktranspiler "people" 10 100 in
  let parse : part_000.ListRequest -> result CheckedExpr :=
    fun _ => Ok (mkCheckedExpr ∅ Expr_nil) in
  let built :=
    Ok (mkquery (firestore.mkQuery "users/u1/people" None [] [] None)
          ∅ "" []) in
  @part_000.Transpile strcaseExternals parse t
    (part_000.mkListRequest "users/u1" 0 "" "") = built
  /\ @part_000.Transpile strcaseExternals parse t
       (part_000.mkListRequest "users/u1" 1000 "" "") = built
  /\ @part_000.Transpile strcaseExternals parse t
       (part_000.mkListRequest "users/u1" 25 "" "") = built
  /\ @part_000.Transpile strcaseExternals parse t
       (part_000.mkListRequest "users/u1" (-1) "" "")
     = Error (mkStatus codes.InvalidArgument "page size cannot be negative").
Proof.
  intros t parse built.
  pose proof (@page_size_not_applied strcaseExternals parse t
                (part_000.mkListRequest "users/u1" 25 "" "")) as Hsame.
  destruct Hsame as (_ & _ & Hsame).
  assert (H25 : @part_000.Transpile strcaseExternals parse t
                  (part_000.mkListRequest "users/u1" 25 "" "") = built)
    by reflexivity.
  split; [|split; [|split]].
  - rewrite <- H25. apply (Hsame 0); [discriminate | discriminate | reflexivity].
  - rewrite <- H25.
    apply (Hsame 1000); [discriminate | discriminate | reflexivity].
  - exact H25.
  - exact (proj1 (@page_size_not_applied strcaseExternals parse t
                    (part_000.mkListRequest "users/u1" (-1) "" ""))
             eq_refl).
Defined.
